(** * elsa-data: the select-job engine of [JobsService]

    A shallow embedding of
    [application/backend/src/business/services/jobs-service.ts] and of the
    EdgeDB schema it runs against ([dbschema/job.esdl]).

    The database is an explicit state [Db]; a service method is a function
    from a database to a database and an outcome, the outcome being either a
    returned value or a thrown exception.  [edgeDbClient.transaction] is the
    combinator [transaction], which keeps the writes of its body when the
    body returns and drops them when the body throws. *)

From Stdlib Require Import ZArith QArith Qround PrimFloat Uint63.
From stdpp Require Import gmap strings list fin_maps.

Local Open Scope string_scope.
Local Open Scope Z_scope.

(** Object ids are EdgeDB uuids, which the service handles as strings. *)
Abbreviation uuid := string (only parsing).

(** ** Exceptions and outcomes *)

Inductive exn : Type :=
| Base7807Error (title : string) (status : Z) (detail : string)
| NotAuthorisedToControlJob (userRole : string) (releaseId : uuid)
| Error (message : string)
| EdgeDbError (kind : string).

Inductive result (A : Type) : Type :=
| Ok (a : A)
| Throw (e : exn).
Arguments Ok {A} a.
Arguments Throw {A} e.

(** ** Schema: module [dataset] *)

Module dataset.

Record DatasetSpecimen : Type := { specimen_id : uuid }.

Record DatasetPatient : Type :=
  { patient_id : uuid;
    specimens : option (list DatasetSpecimen) }.

(* The shape selected by [doSelectJobWork]: a case with its patients and
   their specimens.  A missing array ([null]) is [None]; the service reads
   it with [|| []]. *)
Record DatasetCase : Type :=
  { case_id : uuid;
    patients : option (list DatasetPatient) }.

End dataset.

(** ** Schema: module [release] *)

Module release.

Inductive ApplicationCodedStudyType : Type := GRU | HMB | CC | POA | DS.

Record ApplicationCoded : Type :=
  { countriesInvolved : list (string * string);
    diseasesOfStudy : list (string * string);
    studyAgreesToPublish : bool;
    studyIsNotCommercial : bool;
    studyType : ApplicationCodedStudyType }.

Record Release : Type :=
  { applicationCoded : ApplicationCoded;
    selectedSpecimens : gset uuid }.

End release.

(** ** Schema: module [job] *)

Module job.

Inductive JobStatus : Type := running | succeeded | failed | cancelled.

#[global] Instance JobStatus_eq_dec : EqDecision JobStatus.
Proof. solve_decision. Defined.

(* [SelectJob extending Job]: the fields of the abstract [Job] followed by
   those of [SelectJob].  Datetimes are instants on the database clock,
   [percentDone] is an int16 and [initialTodoCount] an int32, both kept as
   integers; the two multi links are sets of object ids. *)
Record SelectJob : Type :=
  { forRelease : uuid;
    status : JobStatus;
    created : Z;
    started : Z;
    requestedCancellation : bool;
    percentDone : Z;
    messages : list string;
    ended : option Z;
    initialTodoCount : Z;
    todoQueue : gset uuid;
    selectedSpecimens : gset uuid }.

End job.

(** ** The database *)

(* [jobs] holds the [job::SelectJob] objects, the only concrete job type of
   the schema.  [datasetCases] holds, per case object id, the patients of that case (with
   their specimens) as the nested select of [doSelectJobWork] returns them.
   [datetime_current] is the value of EdgeDB's [datetime_current()]. *)
Record Db : Type :=
  { jobs : gmap uuid job.SelectJob;
    releases : gmap uuid release.Release;
    datasetCases : gmap uuid (option (list dataset.DatasetPatient));
    datetime_current : Z }.

Definition set_jobs (f : gmap uuid job.SelectJob → gmap uuid job.SelectJob)
    (db : Db) : Db :=
  {| jobs := f (jobs db);
     releases := releases db;
     datasetCases := datasetCases db;
     datetime_current := datetime_current db |}.

Definition set_releases
    (f : gmap uuid release.Release → gmap uuid release.Release) (db : Db) : Db :=
  {| jobs := jobs db;
     releases := f (releases db);
     datasetCases := datasetCases db;
     datetime_current := datetime_current db |}.

(** ** Statements run against the database *)

(* A statement reads and writes the database and returns or throws. *)
Definition Tx (A : Type) : Type := Db → Db * result A.

Definition tx_ret {A : Type} (a : A) : Tx A := λ db, (db, Ok a).

Definition tx_throw {A : Type} (e : exn) : Tx A := λ db, (db, Throw e).

Definition tx_bind {A B : Type} (m : Tx A) (k : A → Tx B) : Tx B :=
  λ db, match m db with
        | (db', Ok a) => k a db'
        | (db', Throw e) => (db', Throw e)
        end.

Declare Scope tx_scope.
Delimit Scope tx_scope with tx.
Notation "x <- m ;; k" := (tx_bind m (λ x, k))
  (at level 100, m at next level, right associativity) : tx_scope.
Notation "m ;;; k" := (tx_bind m (λ _, k))
  (at level 100, right associativity) : tx_scope.

(* A read-only query. *)
Definition tx_query {A : Type} (q : Db → A) : Tx A := λ db, (db, Ok (q db)).

(* A pure computation that may throw. *)
Definition tx_lift {A : Type} (r : result A) : Tx A := λ db, (db, r).

(* [edgeDbClient.transaction(async (tx) => body)]: the body's writes are
   committed when it returns and rolled back when it throws; the exception is
   rethrown to the caller.  The client's retry of a body that met a
   serialization conflict does not arise with one client at a time. *)
Definition transaction {A : Type} (body : Tx A) : Tx A :=
  λ db, match body db with
        | (db', Ok a) => (db', Ok a)
        | (_, Throw e) => (db, Throw e)
        end.

(* [e.update(e.job.SelectJob, sj => ({ filter: sj.id = jobId, set: ... }))]:
   the [set] expressions are evaluated on the stored object; no object with
   that id means no row is touched. *)
Definition update_SelectJob (jobId : uuid)
    (set : job.SelectJob → result job.SelectJob) : Tx unit :=
  λ db, match jobs db !! jobId with
        | None => (db, Ok tt)
        | Some sj =>
            match set sj with
            | Ok sj' => (set_jobs <[jobId := sj']> db, Ok tt)
            | Throw e => (db, Throw e)
            end
        end.

(* [e.update(<release query>, rq => ({ set: ... }))]. *)
Definition update_Release (releaseId : uuid)
    (set : release.Release → release.Release) : Tx unit :=
  λ db, match releases db !! releaseId with
        | None => (db, Ok tt)
        | Some r => (set_releases <[releaseId := set r]> db, Ok tt)
        end.

(** ** date-fns *)

(* [differenceInSeconds(dateLeft, dateRight)] of date-fns, on instants in
   milliseconds: the signed difference [dateLeft - dateRight] in whole
   seconds, rounded towards zero. *)
Definition differenceInSeconds (dateLeft dateRight : Z) : Z :=
  Z.quot (dateLeft - dateRight) 1000.

(** ** Record updates of a select job *)

Definition with_selectedSpecimens (s : gset uuid) (sj : job.SelectJob)
    : job.SelectJob :=
  {| job.forRelease := job.forRelease sj;
     job.status := job.status sj;
     job.created := job.created sj;
     job.started := job.started sj;
     job.requestedCancellation := job.requestedCancellation sj;
     job.percentDone := job.percentDone sj;
     job.messages := job.messages sj;
     job.ended := job.ended sj;
     job.initialTodoCount := job.initialTodoCount sj;
     job.todoQueue := job.todoQueue sj;
     job.selectedSpecimens := s |}.

Definition with_todoQueue_percentDone (q : gset uuid) (pd : Z)
    (sj : job.SelectJob) : job.SelectJob :=
  {| job.forRelease := job.forRelease sj;
     job.status := job.status sj;
     job.created := job.created sj;
     job.started := job.started sj;
     job.requestedCancellation := job.requestedCancellation sj;
     job.percentDone := pd;
     job.messages := job.messages sj;
     job.ended := job.ended sj;
     job.initialTodoCount := job.initialTodoCount sj;
     job.todoQueue := q;
     job.selectedSpecimens := job.selectedSpecimens sj |}.

Definition with_percentDone_ended_status (pd : Z) (t : Z) (st : job.JobStatus)
    (sj : job.SelectJob) : job.SelectJob :=
  {| job.forRelease := job.forRelease sj;
     job.status := st;
     job.created := job.created sj;
     job.started := job.started sj;
     job.requestedCancellation := job.requestedCancellation sj;
     job.percentDone := pd;
     job.messages := job.messages sj;
     job.ended := Some t;
     job.initialTodoCount := job.initialTodoCount sj;
     job.todoQueue := job.todoQueue sj;
     job.selectedSpecimens := job.selectedSpecimens sj |}.

(* The [percentDone] property: an int16 with [min_value(0)] and
   [max_value(100)]; a value outside is refused by the database. *)
Definition check_percentDone (pd : Z) : result Z :=
  if (pd <? -32768) || (32767 <? pd) then Throw (EdgeDbError "NumericOutOfRangeError")
  else if (pd <? 0) || (100 <? pd) then Throw (EdgeDbError "ConstraintViolationError")
  else Ok pd.

(* The expression assigned to [percentDone] by a batch,
     floor(((initialTodoCount - count(todoQueue)) + casesFromQueue.length)
           * 99.99 / initialTodoCount)
   evaluated on the stored job, that is with the queue as it is before the
   claimed cases are taken off.  The literal 99.99 is taken as the decimal
   9999/100 and the arithmetic is exact; the database computes in float64,
   and [float64_agrees_upto] below compares the two. *)
Definition percentDone_expr (sj : job.SelectJob) (casesFromQueue_length : nat)
    : result Z :=
  if job.initialTodoCount sj =? 0 then Throw (EdgeDbError "DivisionByZeroError")
  else
    Ok (Qfloor
          (inject_Z (job.initialTodoCount sj
                     - Z.of_nat (size (job.todoQueue sj))
                     + Z.of_nat casesFromQueue_length)
           * (9999 # 100)
           / inject_Z (job.initialTodoCount sj))%Q).

(** ** What [getReleaseInfo] hands to the job service *)

(* Two of the queries built by the helper [getReleaseInfo]: the release
   itself and all the cases of the datasets of the release.  They are
   queries, run inside the transaction that uses them. *)
Record ReleaseInfo : Type :=
  { releaseQuery : Db → option uuid;
    releaseAllDatasetCasesQuery : Db → gset uuid }.

(** ** More of the database interface *)

Definition with_requestedCancellation (b : bool) (sj : job.SelectJob)
    : job.SelectJob :=
  {| job.forRelease := job.forRelease sj;
     job.status := job.status sj;
     job.created := job.created sj;
     job.started := job.started sj;
     job.requestedCancellation := b;
     job.percentDone := job.percentDone sj;
     job.messages := job.messages sj;
     job.ended := job.ended sj;
     job.initialTodoCount := job.initialTodoCount sj;
     job.todoQueue := job.todoQueue sj;
     job.selectedSpecimens := job.selectedSpecimens sj |}.

(* [.assert_single()] on the result of a select: no element is [null], one
   element is that element, more are refused by the database. *)
Definition assert_single {A : Type} (l : list A) : result (option A) :=
  match l with
  | [] => Ok None
  | [x] => Ok (Some x)
  | _ :: _ :: _ => Throw (EdgeDbError "CardinalityViolationError")
  end.

(* An element of the array returned by [getInProgressSelectJobs]. *)
Module InProgressSelectJob.

Record t : Type :=
  { jobId : uuid;
    releaseId : uuid;
    requestedCancellation : bool }.

End InProgressSelectJob.

(** ** The service *)

Module JobsService.
Section JobsService.

(* What the service takes from elsewhere: the role check and
   [getReleaseInfo] of [helpers], [getBase] of the releases service,
   [isSelectable] of the select service, the uuid the database gives to an
   inserted object, and the order in which the database enumerates a link
   set.  The first four read the database and may throw. *)
Context {AuthenticatedUser ReleaseDetailType : Type}.
Variable doRoleInReleaseCheck : Db → AuthenticatedUser → uuid → result string.
Variable getReleaseInfo : Db → uuid → result ReleaseInfo.
Variable getBase : Db → uuid → string → result ReleaseDetailType.
Variable isSelectable :
  option release.ApplicationCoded → dataset.DatasetCase →
  dataset.DatasetPatient → dataset.DatasetSpecimen → result bool.
Variable uuid_generate : Db → uuid.
Variable selectOrder : gset uuid → list uuid.

(* The ids of the jobs selected by
     filter: j.status = running and j.forRelease.id = releaseId *)
Definition runningJobsOf (releaseId : uuid) (db : Db) : list uuid :=
  (map_to_list
     (filter (λ kv, job.status kv.2 = job.running
                    ∧ job.forRelease kv.2 = releaseId) (jobs db))).*1.

Definition startGenericJob (releaseId : uuid) (finalJobStartStep : Tx unit)
    : Tx unit :=
  transaction
    (oldJob <- tx_query (runningJobsOf releaseId) ;;
     if (0 <? length oldJob)%nat then
       tx_throw
         (Base7807Error "Only one running job is allowed per release" 400
            ("Job with id(s) " ++ String.concat " " oldJob
             ++ " have been found in the running state"))
     else finalJobStartStep)%tx.

(* [e.insert(e.job.SelectJob, {...})] of [startSelectJob]; [forRelease] is
   a required link and [created] defaults to [datetime_current()]. *)
Definition insert_SelectJob (info : ReleaseInfo) : Tx unit :=
  λ db, match releaseQuery info db with
        | None => (db, Throw (EdgeDbError "MissingRequiredError"))
        | Some r =>
            (set_jobs
               <[uuid_generate db :=
                   {| job.forRelease := r;
                      job.status := job.running;
                      job.created := datetime_current db;
                      job.started := datetime_current db;
                      job.requestedCancellation := false;
                      job.percentDone := 0;
                      job.messages := ["Created"];
                      job.ended := None;
                      job.initialTodoCount :=
                        Z.of_nat (size (releaseAllDatasetCasesQuery info db));
                      job.todoQueue := releaseAllDatasetCasesQuery info db;
                      job.selectedSpecimens := ∅ |}]> db,
             Ok tt)
        end.

Definition startSelectJob (user : AuthenticatedUser) (releaseId : uuid)
    : Tx ReleaseDetailType :=
  (userRole <- (λ db, (db, doRoleInReleaseCheck db user releaseId)) ;;
   if bool_decide (userRole ≠ "DataOwner") then
     tx_throw (NotAuthorisedToControlJob userRole releaseId)
   else
     info <- (λ db, (db, getReleaseInfo db releaseId)) ;;
     startGenericJob releaseId (insert_SelectJob info) ;;;
     (λ db, (db, getBase db releaseId userRole)))%tx.

(** *** [doSelectJobWork] *)

(* select(selectJobQuery.todoQueue, c => ({ ..., patients: { ...,
   specimens: {...} }, limit })) *)
Definition select_todoQueue (jobId : uuid) (limit : nat) (db : Db)
    : list dataset.DatasetCase :=
  match jobs db !! jobId with
  | None => []
  | Some sj =>
      take limit
        (omap (λ id, dataset.Build_DatasetCase id <$> datasetCases db !! id)
              (selectOrder (job.todoQueue sj)))
  end.

(* The three nested [for] loops; [resultSpecimens] is the array the
   selected specimen ids are pushed on, and a throw of [isSelectable]
   leaves the loops. *)
Fixpoint forSpecimens (applicationCoded : option release.ApplicationCoded)
    (cas : dataset.DatasetCase) (pat : dataset.DatasetPatient)
    (specs : list dataset.DatasetSpecimen) (resultSpecimens : list uuid)
    : result (list uuid) :=
  match specs with
  | [] => Ok resultSpecimens
  | spec :: specs' =>
      match isSelectable applicationCoded cas pat spec with
      | Throw e => Throw e
      | Ok true =>
          forSpecimens applicationCoded cas pat specs'
            (resultSpecimens ++ [dataset.specimen_id spec])%list
      | Ok false =>
          forSpecimens applicationCoded cas pat specs' resultSpecimens
      end
  end.

Fixpoint forPatients (applicationCoded : option release.ApplicationCoded)
    (cas : dataset.DatasetCase) (pats : list dataset.DatasetPatient)
    (resultSpecimens : list uuid) : result (list uuid) :=
  match pats with
  | [] => Ok resultSpecimens
  | pat :: pats' =>
      match forSpecimens applicationCoded cas pat
              (default [] (dataset.specimens pat)) resultSpecimens with
      | Throw e => Throw e
      | Ok resultSpecimens' =>
          forPatients applicationCoded cas pats' resultSpecimens'
      end
  end.

Fixpoint forCases (applicationCoded : option release.ApplicationCoded)
    (casesFromQueue : list dataset.DatasetCase) (resultSpecimens : list uuid)
    : result (list uuid) :=
  match casesFromQueue with
  | [] => Ok resultSpecimens
  | cas :: cases' =>
      match forPatients applicationCoded cas
              (default [] (dataset.patients cas)) resultSpecimens with
      | Throw e => Throw e
      | Ok resultSpecimens' =>
          forCases applicationCoded cases' resultSpecimens'
      end
  end.

(* The body of the transaction of one turn of the loop.  The specimens in
   [resultSpecimens] were read from the database in this transaction, so
   the objects with an id in that list are exactly those ids.  The update
   of [messages] is absent: the source has it commented out. *)
Definition selectJobBatch (jobId : uuid)
    (applicationCoded : option release.ApplicationCoded) : Tx nat :=
  (casesFromQueue <- tx_query (select_todoQueue jobId 1) ;;
   let resultMessages := ["Doing some work"] in
   resultSpecimens <- tx_lift (forCases applicationCoded casesFromQueue []) ;;
   (if (0 <? length resultSpecimens)%nat then
      update_SelectJob jobId
        (λ sj, Ok (with_selectedSpecimens
                     (job.selectedSpecimens sj ∪ list_to_set resultSpecimens)
                     sj))
    else tx_ret tt) ;;;
   (if (0 <? length casesFromQueue)%nat then
      update_SelectJob jobId
        (λ sj,
           match percentDone_expr sj (length casesFromQueue) with
           | Throw e => Throw e
           | Ok v =>
               match check_percentDone v with
               | Throw e => Throw e
               | Ok pd =>
                   Ok (with_todoQueue_percentDone
                         (job.todoQueue sj
                            ∖ list_to_set (dataset.case_id <$> casesFromQueue))
                         pd sj)
               end
           end)
    else tx_ret tt) ;;;
   tx_ret (length casesFromQueue))%tx.

(* The [while] loop.  [clock] lists the values of the successive
   [new Date()] of the loop condition, in milliseconds; the loop needs one
   per turn, and [None] means the list ran out before the loop ended. *)
Fixpoint doSelectJobWork_loop (jobId : uuid)
    (applicationCoded : option release.ApplicationCoded)
    (startTime : Z) (clock : list Z) (processedCount : nat) (db : Db)
    : option (Db * result nat) :=
  match clock with
  | [] => None
  | now :: clock' =>
      if differenceInSeconds startTime now <? 10 then
        match transaction (selectJobBatch jobId applicationCoded) db with
        | (db', Throw e) => Some (db', Throw e)
        | (db', Ok c) =>
            if (c =? 0)%nat then Some (db', Ok (processedCount + c)%nat)
            else
              doSelectJobWork_loop jobId applicationCoded startTime clock'
                (processedCount + c)%nat db'
        end
      else Some (db, Ok processedCount)
  end.

(* [clock] starts with the value of [new Date()] taken for [startTime]. *)
Definition doSelectJobWork (jobId : uuid) (roughlyMaxSeconds : Z)
    (clock : list Z) (db : Db) : option (Db * result nat) :=
  match jobs db !! jobId with
  | None => Some (db, Throw (Error "Job id passed in was not a Select Job"))
  | Some sj =>
      let applicationCoded :=
        release.applicationCoded <$> releases db !! job.forRelease sj in
      match clock with
      | [] => None
      | startTime :: clock' =>
          doSelectJobWork_loop jobId applicationCoded startTime clock' 0%nat db
      end
  end.

(** *** [endSelectJob] *)

(* The guard [if (!selectJobQuery)] of the source tests the query object,
   which is never null: it never throws and is left out.  The release is
   updated with [selectedSpecimens: selectJobQuery.selectedSpecimens], an
   assignment of the link set. *)

Definition endSelectJob (jobId : uuid) (wasSuccessful isCancellation : bool)
    : Tx unit :=
  transaction
    ((if negb isCancellation then
        if wasSuccessful then
          (λ db,
             match jobs db !! jobId with
             | None => (db, Ok tt)
             | Some sj =>
                 update_Release (job.forRelease sj)
                   (λ rq,
                      {| release.applicationCoded := release.applicationCoded rq;
                         release.selectedSpecimens := job.selectedSpecimens sj |})
                   db
             end)
        else tx_ret tt
      else tx_ret tt) ;;;
     (λ db,
        update_SelectJob jobId
          (λ sj,
             match check_percentDone 100 with
             | Throw e => Throw e
             | Ok pd =>
                 Ok (with_percentDone_ended_status pd (datetime_current db)
                       (if isCancellation then job.cancelled
                        else if wasSuccessful then job.succeeded
                        else job.failed) sj)
             end)
          db))%tx.

(** *** [cancelInProgressSelectJob] *)

(* [getReleaseInfo] is called as in the source, its result is not used. *)
Definition cancelInProgressSelectJob (user : AuthenticatedUser)
    (releaseId : uuid) : Tx ReleaseDetailType :=
  (userRole <- (λ db, (db, doRoleInReleaseCheck db user releaseId)) ;;
   if bool_decide (userRole ≠ "DataOwner") then
     tx_throw (NotAuthorisedToControlJob userRole releaseId)
   else
     info <- (λ db, (db, getReleaseInfo db releaseId)) ;;
     transaction
       (currentJob <-
          (λ db, (db, assert_single (runningJobsOf releaseId db))) ;;
        match currentJob with
        | None => tx_throw (Error "No job yet")
        | Some currentJob_id =>
            update_SelectJob currentJob_id
              (λ sj, Ok (with_requestedCancellation true sj))
        end) ;;;
     (λ db, (db, getBase db releaseId userRole)))%tx.

(** *** [getInProgressSelectJobs] and [getPreviousJobs] *)

Definition getInProgressSelectJobs (db : Db) : list InProgressSelectJob.t :=
  (λ kv,
     {| InProgressSelectJob.jobId := kv.1;
        InProgressSelectJob.releaseId := job.forRelease kv.2;
        InProgressSelectJob.requestedCancellation :=
          job.requestedCancellation kv.2 |})
    <$> map_to_list (filter (λ kv, job.status kv.2 = job.running) (jobs db)).

(* The select has no shape, so the objects returned carry their id only. *)
Definition getPreviousJobs (releaseId : uuid) (db : Db) : list uuid :=
  (map_to_list
     (filter (λ kv, job.status kv.2 ≠ job.running
                    ∧ job.forRelease kv.2 = releaseId) (jobs db))).*1.

End JobsService.
End JobsService.

(** ** The releases service: the checkbox tree of [getCases]

    [getCases] of the releases service runs a case search and maps the rows
    it gets to the tree shown to the user, with a selection state on every
    node.  The rows are taken as they come from the query; the mapping, the
    local functions [calcNodeStatus], [createSpecimenMap], [createPatientMap]
    and [createCaseMap], is embedded here. *)

Module ReleasesService.

Inductive ReleaseNodeStatusType : Type := selected | unselected | indeterminate.

#[global] Instance ReleaseNodeStatusType_eq_dec : EqDecision ReleaseNodeStatusType.
Proof. solve_decision. Defined.

(* The rows of the case search: a specimen with its computed [isSelected],
   a patient with its specimens, a case with its dataset and patients.  A
   link that is not there ([consent], [dataset]) is [None]. *)
Module SpecimenRow.
Record t : Type :=
  { id : uuid;
    externalIdentifiers : option (list (string * string));
    consent : option uuid;
    isSelected : bool }.
End SpecimenRow.

Module PatientRow.
Record t : Type :=
  { id : uuid;
    sexAtBirth : option string;
    externalIdentifiers : option (list (string * string));
    consent : option uuid;
    specimens : list SpecimenRow.t }.
End PatientRow.

Module DatasetRow.
Record t : Type := { id : uuid; uri : option string }.
End DatasetRow.

Module CaseRow.
Record t : Type :=
  { id : uuid;
    externalIdentifiers : option (list (string * string));
    dataset : option DatasetRow.t;
    consent : option uuid;
    patients : list PatientRow.t }.
End CaseRow.

(* The nodes of the tree. *)
Module ReleaseSpecimenType.
Record t : Type :=
  { id : uuid;
    externalId : string;
    nodeStatus : ReleaseNodeStatusType;
    customConsent : bool }.
End ReleaseSpecimenType.

Module ReleasePatientType.
Record t : Type :=
  { id : uuid;
    sexAtBirth : option string;
    externalId : string;
    nodeStatus : ReleaseNodeStatusType;
    customConsent : bool;
    specimens : list ReleaseSpecimenType.t }.
End ReleasePatientType.

Module ReleaseCaseType.
Record t : Type :=
  { id : uuid;
    externalId : string;
    fromDatasetId : option uuid;
    fromDatasetUri : option string;
    nodeStatus : ReleaseNodeStatusType;
    customConsent : bool;
    patients : list ReleasePatientType.t }.
End ReleaseCaseType.

(* [nodes.every(...)] on the [nodeStatus] of the child nodes. *)
Definition calcNodeStatus (nodes : list ReleaseNodeStatusType)
    : ReleaseNodeStatusType :=
  let isAllSelected := forallb (λ s, bool_decide (s = selected)) nodes in
  let isNoneSelected := forallb (λ s, bool_decide (s = unselected)) nodes in
  if isAllSelected then selected
  else if isNoneSelected then unselected
  else indeterminate.

(* lodash [isObjectLike] on a link: an object that is there. *)
Definition isObjectLike {A : Type} (value : option A) : bool :=
  bool_decide (is_Some value).

(* [x || undefined] on a string that may be missing: the empty string is
   falsy. *)
Definition or_undefined (x : option string) : option string :=
  match x with
  | Some "" => None
  | _ => x
  end.

Section getCases.

(* [collapseExternalIds] of [helpers]. *)
Variable collapseExternalIds : option (list (string * string)) → string.

Definition createSpecimenMap (spec : SpecimenRow.t) : ReleaseSpecimenType.t :=
  {| ReleaseSpecimenType.id := SpecimenRow.id spec;
     ReleaseSpecimenType.externalId :=
       collapseExternalIds (SpecimenRow.externalIdentifiers spec);
     ReleaseSpecimenType.nodeStatus :=
       if SpecimenRow.isSelected spec then selected else unselected;
     ReleaseSpecimenType.customConsent :=
       isObjectLike (SpecimenRow.consent spec) |}.

Definition createPatientMap (pat : PatientRow.t) : ReleasePatientType.t :=
  let specimensMapped := createSpecimenMap <$> PatientRow.specimens pat in
  {| ReleasePatientType.id := PatientRow.id pat;
     ReleasePatientType.sexAtBirth := or_undefined (PatientRow.sexAtBirth pat);
     ReleasePatientType.externalId :=
       collapseExternalIds (PatientRow.externalIdentifiers pat);
     ReleasePatientType.nodeStatus :=
       calcNodeStatus (ReleaseSpecimenType.nodeStatus <$> specimensMapped);
     ReleasePatientType.customConsent := isObjectLike (PatientRow.consent pat);
     ReleasePatientType.specimens := specimensMapped |}.

Definition createCaseMap (cas : CaseRow.t) : ReleaseCaseType.t :=
  let patientsMapped := createPatientMap <$> CaseRow.patients cas in
  {| ReleaseCaseType.id := CaseRow.id cas;
     ReleaseCaseType.externalId :=
       collapseExternalIds (CaseRow.externalIdentifiers cas);
     ReleaseCaseType.fromDatasetId := DatasetRow.id <$> CaseRow.dataset cas;
     ReleaseCaseType.fromDatasetUri := CaseRow.dataset cas ≫= DatasetRow.uri;
     ReleaseCaseType.nodeStatus :=
       calcNodeStatus (ReleasePatientType.nodeStatus <$> patientsMapped);
     ReleaseCaseType.customConsent := isObjectLike (CaseRow.consent cas);
     ReleaseCaseType.patients := patientsMapped |}.

End getCases.

End ReleasesService.

(** ** A small database to run the service on

    A release [r1] over one dataset of three cases, each with one patient
    and one specimen; the release has specimen [s3] selected already. *)

Module demo.

Definition specimen (id : uuid) : dataset.DatasetSpecimen :=
  {| dataset.specimen_id := id |}.

Definition patient (id spec : uuid) : dataset.DatasetPatient :=
  {| dataset.patient_id := id; dataset.specimens := Some [specimen spec] |}.

Definition applicationCoded : release.ApplicationCoded :=
  {| release.countriesInvolved := [];
     release.diseasesOfStudy := [];
     release.studyAgreesToPublish := true;
     release.studyIsNotCommercial := true;
     release.studyType := release.GRU |}.

Definition db0 : Db :=
  {| jobs := ∅;
     releases :=
       {[ "r1" := {| release.applicationCoded := applicationCoded;
                     release.selectedSpecimens := {[ "s3" ]} |} ]};
     datasetCases :=
       <["c1" := Some [patient "p1" "s1"]]>
         (<["c2" := Some [patient "p2" "s2"]]>
            (<["c3" := Some [patient "p3" "s3"]]> ∅));
     datetime_current := 1000 |}.

Definition info : ReleaseInfo :=
  {| releaseQuery := λ db, (λ _, "r1") <$> releases db !! "r1";
     releaseAllDatasetCasesQuery := λ db, dom (datasetCases db) |}.

(* An evaluator that selects every specimen but [s3]. *)
Definition isSelectable (_ : option release.ApplicationCoded)
    (_ : dataset.DatasetCase) (_ : dataset.DatasetPatient)
    (spec : dataset.DatasetSpecimen) : result bool :=
  Ok (negb (String.eqb (dataset.specimen_id spec) "s3")).

(* An evaluator that selects nothing, and one that throws. *)
Definition selectNone (_ : option release.ApplicationCoded)
    (_ : dataset.DatasetCase) (_ : dataset.DatasetPatient)
    (_ : dataset.DatasetSpecimen) : result bool :=
  Ok false.

Definition selectFault (_ : option release.ApplicationCoded)
    (_ : dataset.DatasetCase) (_ : dataset.DatasetPatient)
    (_ : dataset.DatasetSpecimen) : result bool :=
  Throw (Error "consent lookup failed").

Definition startSelectJob : Tx unit :=
  JobsService.startSelectJob (AuthenticatedUser := unit)
    (λ _ _ _, Ok "DataOwner") (λ _ _, Ok info) (λ _ _ _, Ok tt)
    (λ _, "j1") tt "r1".

(* The database once the job [j1] is started, and the job. *)
Definition db1 : Db := (startSelectJob db0).1.

Definition job1 : job.SelectJob :=
  {| job.forRelease := "r1";
     job.status := job.running;
     job.created := 1000;
     job.started := 1000;
     job.requestedCancellation := false;
     job.percentDone := 0;
     job.messages := ["Created"];
     job.ended := None;
     job.initialTodoCount := 3;
     job.todoQueue := {[ "c1"; "c2"; "c3" ]};
     job.selectedSpecimens := ∅ |}.

(* One call of [doSelectJobWork] with a budget of one second, on a clock
   that advances by 100 seconds between two readings. *)
Definition work : option (Db * result nat) :=
  JobsService.doSelectJobWork isSelectable elements "j1" 1
    [0; 100000; 200000; 300000; 400000] db1.

Definition db2 : Db := from_option fst db1 work.

(* The database after the job is ended as successful. *)
Definition db3 : Db := (JobsService.endSelectJob "j1" true false db2).1.

(* The first batch on [db1] claims the case [c3]. *)
Definition case3 : dataset.DatasetCase :=
  {| dataset.case_id := "c3"; dataset.patients := Some [patient "p3" "s3"] |}.

Definition db1_batch : Db :=
  (transaction
     (JobsService.selectJobBatch isSelectable elements "j1" (Some applicationCoded))
     db1).1.

End demo.

(** ** The end-to-end scenario of the specification

    A release over ten cases, each with one patient and one specimen, no
    specimen selected yet, and an evaluator that selects everything. *)

Module scenario.

Definition digits : list string :=
  ["0"; "1"; "2"; "3"; "4"; "5"; "6"; "7"; "8"; "9"].

Definition db0 : Db :=
  {| jobs := ∅;
     releases :=
       {[ "r1" := {| release.applicationCoded := demo.applicationCoded;
                     release.selectedSpecimens := ∅ |} ]};
     datasetCases :=
       list_to_map
         ((λ i, ("c" ++ i, Some [demo.patient ("p" ++ i) ("s" ++ i)]))
            <$> digits);
     datetime_current := 1000 |}.

Definition isSelectable (_ : option release.ApplicationCoded)
    (_ : dataset.DatasetCase) (_ : dataset.DatasetPatient)
    (_ : dataset.DatasetSpecimen) : result bool :=
  Ok true.

Definition db1 : Db := (demo.startSelectJob db0).1.

(* [n] batches in a row, each in its transaction. *)
Fixpoint batches (n : nat) (db : Db) : Db :=
  match n with
  | O => db
  | S n' =>
      batches n'
        (transaction
           (JobsService.selectJobBatch isSelectable elements "j1"
              (Some demo.applicationCoded)) db).1
  end.

(* What is looked at in a job and in the release. *)
Definition view (db : Db) : option (job.JobStatus * Z * Z * Z * Z) :=
  (λ sj, (job.status sj, job.percentDone sj, job.initialTodoCount sj,
          Z.of_nat (size (job.todoQueue sj)),
          Z.of_nat (size (job.selectedSpecimens sj))))
    <$> jobs db !! "j1".

Definition released (db : Db) : option Z :=
  (λ rq, Z.of_nat (size (release.selectedSpecimens rq))) <$> releases db !! "r1".

End scenario.

(** ** More runs on the small database *)

Module demo_more.

(* A caller who is a principal investigator, not a data owner. *)
Definition startSelectJob_PI : Tx unit :=
  JobsService.startSelectJob (AuthenticatedUser := unit)
    (λ _ _ _, Ok "PI") (λ _ _, Ok demo.info) (λ _ _ _, Ok tt)
    (λ _, "j1") tt "r1".

Definition cancelInProgressSelectJob : Tx unit :=
  JobsService.cancelInProgressSelectJob (AuthenticatedUser := unit)
    (λ _ _ _, Ok "DataOwner") (λ _ _, Ok demo.info) (λ _ _ _, Ok tt) tt "r1".

(* The job after the call of [doSelectJobWork] of [demo.work]. *)
Definition job2 : job.SelectJob :=
  with_todoQueue_percentDone ∅ 99
    (with_selectedSpecimens {[ "s1"; "s2" ]} demo.job1).

(* The job after the first batch on [demo.db1], which claimed [c3], and the
   database after the second batch, which claims [c1]. *)
Definition job1_batch : job.SelectJob :=
  with_todoQueue_percentDone {[ "c1"; "c2" ]} 33 demo.job1.

Definition case1 : dataset.DatasetCase :=
  {| dataset.case_id := "c1";
     dataset.patients := Some [demo.patient "p1" "s1"] |}.

Definition db1_batch2 : Db :=
  (transaction
     (JobsService.selectJobBatch demo.isSelectable elements "j1"
        (Some demo.applicationCoded))
     demo.db1_batch).1.

End demo_more.

(** ** Rows of a case search *)

Module demo_rows.

Definition specimen (id : uuid) (isSelected : bool)
    : ReleasesService.SpecimenRow.t :=
  {| ReleasesService.SpecimenRow.id := id;
     ReleasesService.SpecimenRow.externalIdentifiers := None;
     ReleasesService.SpecimenRow.consent := None;
     ReleasesService.SpecimenRow.isSelected := isSelected |}.

Definition patient (id : uuid) (specimens : list ReleasesService.SpecimenRow.t)
    : ReleasesService.PatientRow.t :=
  {| ReleasesService.PatientRow.id := id;
     ReleasesService.PatientRow.sexAtBirth := None;
     ReleasesService.PatientRow.externalIdentifiers := None;
     ReleasesService.PatientRow.consent := None;
     ReleasesService.PatientRow.specimens := specimens |}.

Definition case (id : uuid) (patients : list ReleasesService.PatientRow.t)
    : ReleasesService.CaseRow.t :=
  {| ReleasesService.CaseRow.id := id;
     ReleasesService.CaseRow.externalIdentifiers := None;
     ReleasesService.CaseRow.dataset := None;
     ReleasesService.CaseRow.consent := None;
     ReleasesService.CaseRow.patients := patients |}.

(* A case row whose specimen rows are all selected, and one with none
   selected. *)
Definition case_all : ReleasesService.CaseRow.t :=
  case "c1" [patient "p1" [specimen "s1" true];
             patient "p2" [specimen "s2" true]].

Definition case_none : ReleasesService.CaseRow.t :=
  case "c2" [patient "p3" [specimen "s3" false]].

Definition collapseExternalIds (_ : option (list (string * string))) : string :=
  "".

End demo_rows.

(** ** The progress formula in binary64

    The database evaluates the formula of [percentDone_expr] in float64,
    with the literal 99.99 rounded to the nearest binary64 number.
    [float64_percent] is that evaluation on primitive floats, and
    [float64_floor_is x k] says that the floor of [x] is [k]. *)

Definition float64_of_Z (z : Z) : PrimFloat.float :=
  PrimFloat.of_uint63 (Uint63.of_Z z).

Definition float64_percent (processed initialTodoCount : Z) : PrimFloat.float :=
  PrimFloat.div
    (PrimFloat.mul (float64_of_Z processed) 0x1.8ff5c28f5c28fp+6%float)
    (float64_of_Z initialTodoCount).

Definition float64_floor_is (x : PrimFloat.float) (k : Z) : bool :=
  PrimFloat.leb (float64_of_Z k) x && PrimFloat.ltb x (float64_of_Z (k + 1)).

(* The exact formula and the binary64 one have the same floor for every
   [initialTodoCount] from 1 to [m] and every processed count up to it. *)
Definition float64_agrees_upto (m : nat) : bool :=
  forallb
    (λ n, forallb
            (λ a, float64_floor_is
                    (float64_percent (Z.of_nat a) (Z.of_nat n))
                    (Qfloor (inject_Z (Z.of_nat a) * (9999 # 100)
                             / inject_Z (Z.of_nat n))%Q))
            (seq 0 (S n)))
    (seq 1 m).

Definition committed (sj : job.SelectJob) (casesFromQueue : list dataset.DatasetCase)
    (resultSpecimens : list uuid) (pd : Z) : job.SelectJob :=
  with_todoQueue_percentDone
    (job.todoQueue sj ∖ list_to_set (dataset.case_id <$> casesFromQueue)) pd
    (with_selectedSpecimens
       (job.selectedSpecimens sj ∪ list_to_set resultSpecimens) sj).

(* The count identity of a select job, for a number of cases already
   processed: |todoQueue| + casesAlreadyProcessed = initialTodoCount. *)
Definition count_identity (sj : job.SelectJob) (casesAlreadyProcessed : nat)
    : Prop :=
  Z.of_nat (size (job.todoQueue sj)) + Z.of_nat casesAlreadyProcessed
  = job.initialTodoCount sj.

(* The progress formula in the words of the specification:
   floor(99.99 * processed / initialTodoCount). *)
Definition percentDone_spec (processed initialTodoCount : Z) : Z :=
  Qfloor ((9999 # 100) * inject_Z processed / inject_Z initialTodoCount)%Q.

(* [isSelectable] throws [e] on a specimen of a patient of one of the cases. *)
Definition evaluator_fault
    (isSelectable :
       option release.ApplicationCoded → dataset.DatasetCase →
       dataset.DatasetPatient → dataset.DatasetSpecimen → result bool)
    (applicationCoded : option release.ApplicationCoded)
    (casesFromQueue : list dataset.DatasetCase) (e : exn) : Prop :=
  ∃ cas pat spec,
    cas ∈ casesFromQueue
    ∧ pat ∈ default [] (dataset.patients cas)
    ∧ spec ∈ default [] (dataset.specimens pat)
    ∧ isSelectable applicationCoded cas pat spec = Throw e.

(* [isSelectable] answers true on a specimen of the case with id [s]. *)
Definition approves
    (isSelectable :
       option release.ApplicationCoded → dataset.DatasetCase →
       dataset.DatasetPatient → dataset.DatasetSpecimen → result bool)
    (applicationCoded : option release.ApplicationCoded)
    (cas : dataset.DatasetCase) (s : uuid) : Prop :=
  ∃ pat spec,
    pat ∈ default [] (dataset.patients cas)
    ∧ spec ∈ default [] (dataset.specimens pat)
    ∧ isSelectable applicationCoded cas pat spec = Ok true
    ∧ dataset.specimen_id spec = s.

(* The job has [processed] cases behind it and [percentDone] shows it. *)
Definition progress_recorded (sj : job.SelectJob) (processed : nat) : Prop :=
  count_identity sj processed
  ∧ job.percentDone sj
    = percentDone_spec (Z.of_nat processed) (job.initialTodoCount sj).

(* The database with the cancellation of a job requested. *)
Definition cancellation_requested (jobId : uuid) (db : Db) : Db :=
  set_jobs (alter (with_requestedCancellation true) jobId) db.

(* No release has two running jobs. *)
Definition one_running_job_per_release (db : Db) : Prop :=
  ∀ releaseId jobId1 jobId2,
    jobId1 ∈ JobsService.runningJobsOf releaseId db →
    jobId2 ∈ JobsService.runningJobsOf releaseId db →
    jobId1 = jobId2.

Section Properties.
Variable isSelectable :
  option release.ApplicationCoded → dataset.DatasetCase →
  dataset.DatasetPatient → dataset.DatasetSpecimen → result bool.
Variable selectOrder : gset uuid → list uuid.

Local Abbreviation select_todoQueue := (JobsService.select_todoQueue selectOrder).
Local Abbreviation forSpecimens := (JobsService.forSpecimens isSelectable).
Local Abbreviation forPatients := (JobsService.forPatients isSelectable).
Local Abbreviation forCases := (JobsService.forCases isSelectable).
Local Abbreviation selectJobBatch :=
  (JobsService.selectJobBatch isSelectable selectOrder).
Local Abbreviation doSelectJobWork_loop :=
  (JobsService.doSelectJobWork_loop isSelectable selectOrder).
Local Abbreviation doSelectJobWork :=
  (JobsService.doSelectJobWork isSelectable selectOrder).

Lemma set_jobs_set_jobs f g db : set_jobs f (set_jobs g db) = set_jobs (f ∘ g) db.
Proof. reflexivity. Qed.

Lemma forCases_nil ac rs : forCases ac [] rs = Ok rs.
Proof. reflexivity. Qed.

Lemma select_todoQueue_no_job jobId n db :
  jobs db !! jobId = None → select_todoQueue jobId n db = [].
Proof. intros H. unfold JobsService.select_todoQueue. by rewrite H. Qed.

Lemma transaction_selectJobBatch jobId ac db :
  transaction (selectJobBatch jobId ac) db =
    let casesFromQueue := select_todoQueue jobId 1 db in
    match forCases ac casesFromQueue [] with
    | Throw e => (db, Throw e)
    | Ok resultSpecimens =>
        match jobs db !! jobId, casesFromQueue with
        | Some sj, _ :: _ =>
            match percentDone_expr sj (length casesFromQueue) with
            | Throw e => (db, Throw e)
            | Ok v =>
                match check_percentDone v with
                | Throw e => (db, Throw e)
                | Ok pd =>
                    (set_jobs <[jobId := committed sj casesFromQueue resultSpecimens pd]> db,
                     Ok (length casesFromQueue))
                end
            end
        | _, _ => (db, Ok 0%nat)
        end
    end.
Proof.
  cbv zeta.
  unfold transaction, JobsService.selectJobBatch, tx_bind, tx_query, tx_lift, tx_ret.
  destruct (jobs db !! jobId) as [sj|] eqn:Hj.
  2:{ rewrite (select_todoQueue_no_job _ _ _ Hj). reflexivity. }
  destruct (select_todoQueue jobId 1 db) as [|cas cs] eqn:Hsel.
  { reflexivity. }
  destruct (forCases ac (cas :: cs) []) as [rs|e] eqn:Hfor; [|reflexivity].
  change (0 <? length (cas :: cs))%nat with true. cbv iota.
  destruct rs as [|s rs].
  - change (0 <? length [])%nat with false. cbv iota beta.
    unfold update_SelectJob. rewrite Hj.
    destruct (percentDone_expr sj (length (cas :: cs))) as [v|e]; [|reflexivity].
    destruct (check_percentDone v) as [pd|e]; [|reflexivity].
    unfold committed. rewrite list_to_set_nil, (right_id_L ∅ (∪)).
    destruct sj; reflexivity.
  - change (0 <? length (s :: rs))%nat with true. cbv iota beta.
    unfold update_SelectJob at 1. rewrite Hj.
    unfold update_SelectJob. cbn [jobs set_jobs]. rewrite lookup_insert_eq.
    change (percentDone_expr (with_selectedSpecimens ?x sj) ?n) with (percentDone_expr sj n).
    destruct (percentDone_expr sj (length (cas :: cs))) as [v|e]; [|reflexivity].
    destruct (check_percentDone v) as [pd|e]; [|reflexivity].
    rewrite set_jobs_set_jobs. unfold committed, set_jobs. cbn.
    rewrite insert_insert_eq. reflexivity.
Qed.


Hypothesis selectOrder_perm : ∀ Q : gset uuid, selectOrder Q ≡ₚ elements Q.

Lemma select_todoQueue_length jobId n db :
  (length (select_todoQueue jobId n db) ≤ n)%nat.
Proof.
  unfold JobsService.select_todoQueue.
  destruct (jobs db !! jobId); [|simpl; lia].
  rewrite length_take. lia.
Qed.

Lemma select_todoQueue_elem jobId n db sj cas :
  jobs db !! jobId = Some sj →
  cas ∈ select_todoQueue jobId n db →
  dataset.case_id cas ∈ job.todoQueue sj
  ∧ datasetCases db !! dataset.case_id cas = Some (dataset.patients cas).
Proof.
  intros Hj. unfold JobsService.select_todoQueue. rewrite Hj.
  intros Hin. apply elem_of_take in Hin as (i & Hin & _).
  apply list_elem_of_lookup_2 in Hin.
  apply list_elem_of_omap in Hin as (id & Hid & Hm).
  destruct (datasetCases db !! id) as [ps|] eqn:Hps; [|discriminate].
  injection Hm as <-. cbn. split; [|done].
  rewrite selectOrder_perm in Hid. by apply elem_of_elements in Hid.
Qed.

Lemma select_todoQueue_one jobId db sj cas cs :
  jobs db !! jobId = Some sj →
  select_todoQueue jobId 1 db = cas :: cs →
  cs = [] ∧ dataset.case_id cas ∈ job.todoQueue sj.
Proof.
  intros Hj Hsel. split.
  - pose proof (select_todoQueue_length jobId 1 db) as Hlen.
    rewrite Hsel in Hlen. destruct cs; [done|simpl in Hlen; lia].
  - eapply select_todoQueue_elem; [done|]. rewrite Hsel. left.
Qed.

Lemma select_todoQueue_nil jobId db sj :
  jobs db !! jobId = Some sj →
  select_todoQueue jobId 1 db = [] →
  ∀ id, id ∈ job.todoQueue sj → datasetCases db !! id = None.
Proof.
  intros Hj. unfold JobsService.select_todoQueue. rewrite Hj.
  intros Hnil id Hid.
  destruct (datasetCases db !! id) as [ps|] eqn:Hps; [exfalso|done].
  assert (dataset.Build_DatasetCase id ps ∈
            omap (λ id, dataset.Build_DatasetCase id <$> datasetCases db !! id)
              (selectOrder (job.todoQueue sj))) as Hin.
  { apply list_elem_of_omap. exists id. split.
    - rewrite selectOrder_perm. by apply elem_of_elements.
    - by rewrite Hps. }
  destruct (omap _ _) as [|x xs]; [by apply elem_of_nil in Hin|].
  discriminate Hnil.
Qed.

Lemma size_todoQueue_claim (Q : gset uuid) id :
  id ∈ Q → (size (Q ∖ {[id]}) + 1 = size Q)%nat.
Proof.
  intros Hid.
  assert (size (Q ∖ {[id]}) = size Q - size ({[id]} : gset uuid))%nat as ->.
  { apply size_difference. by apply singleton_subseteq_l. }
  rewrite size_singleton.
  assert (size Q ≠ 0)%nat; [|lia].
  intros H0. apply size_empty_inv in H0. apply (not_elem_of_empty (C:=gset uuid) id).
  by rewrite <- H0.
Qed.


(* What a committed batch is, read off [transaction_selectJobBatch]. *)
Lemma selectJobBatch_Ok jobId ac db db' c :
  transaction (selectJobBatch jobId ac) db = (db', Ok c) →
  (c = 0%nat ∧ db' = db
   ∧ (jobs db !! jobId = None ∨ select_todoQueue jobId 1 db = []))
  ∨ (∃ sj cas resultSpecimens pd,
       jobs db !! jobId = Some sj
       ∧ select_todoQueue jobId 1 db = [cas]
       ∧ dataset.case_id cas ∈ job.todoQueue sj
       ∧ forCases ac [cas] [] = Ok resultSpecimens
       ∧ percentDone_expr sj 1 = Ok pd
       ∧ check_percentDone pd = Ok pd
       ∧ c = 1%nat
       ∧ db' = set_jobs <[jobId := committed sj [cas] resultSpecimens pd]> db).
Proof.
  rewrite transaction_selectJobBatch. cbv zeta.
  destruct (forCases ac (select_todoQueue jobId 1 db) []) as [rs|e] eqn:Hfor;
    [|discriminate].
  destruct (jobs db !! jobId) as [sj|] eqn:Hj.
  2:{ intros [= <- <-]. left. auto. }
  destruct (select_todoQueue jobId 1 db) as [|cas cs] eqn:Hsel.
  { intros [= <- <-]. left. auto. }
  destruct (select_todoQueue_one _ _ _ _ _ Hj Hsel) as [-> Hin].
  destruct (percentDone_expr sj (length [cas])) as [v|e] eqn:Hv; [|discriminate].
  destruct (check_percentDone v) as [pd|e] eqn:Hpd; [|discriminate].
  intros [= <- <-]. right. exists sj, cas, rs, pd.
  assert (pd = v) as ->.
  { unfold check_percentDone in Hpd.
    repeat (destruct (_ || _) in Hpd; [discriminate|]). by injection Hpd. }
  repeat split; done.
Qed.

Lemma selectJobBatch_Throw jobId ac db db' e :
  transaction (selectJobBatch jobId ac) db = (db', Throw e) → db' = db.
Proof.
  unfold transaction. destruct (selectJobBatch jobId ac db) as [db1 [c|e1]];
    [discriminate|]. by intros [= <- _].
Qed.

Lemma committed_count_identity sj cas rs pd processed :
  dataset.case_id cas ∈ job.todoQueue sj →
  count_identity sj processed →
  count_identity (committed sj [cas] rs pd) (processed + 1).
Proof.
  unfold count_identity. cbn. intros Hin Hid.
  rewrite (right_id_L ∅ (∪)).
  pose proof (size_todoQueue_claim _ _ Hin). lia.
Qed.



(** ** The progress percentage *)

Lemma Qfloor_percent_l (a n : Z) :
  0 < n → Qfloor (inject_Z a * (9999 # 100) / inject_Z n)%Q = (a * 9999) / (100 * n).
Proof.
  intros Hn. destruct n as [|p|p]; try lia.
  unfold Qdiv, Qinv, Qmult, Qfloor, inject_Z. cbn [Qnum Qden].
  f_equal; lia.
Qed.

Lemma percentDone_spec_div (a n : Z) :
  0 < n → percentDone_spec a n = (a * 9999) / (100 * n).
Proof.
  intros Hn. unfold percentDone_spec. destruct n as [|p|p]; try lia.
  unfold Qdiv, Qinv, Qmult, Qfloor, inject_Z. cbn [Qnum Qden].
  f_equal; lia.
Qed.

Lemma percent_bounds (a n : Z) :
  0 ≤ a ≤ n → 0 < n → 0 ≤ (a * 9999) / (100 * n) < 100.
Proof.
  intros Ha Hn. split.
  - apply Z.div_pos; lia.
  - apply Z.div_lt_upper_bound; lia.
Qed.

Lemma percentDone_expr_count_identity sj processed c :
  count_identity sj processed → (c ≤ size (job.todoQueue sj))%nat → (0 < c)%nat →
  percentDone_expr sj c
  = Ok (percentDone_spec (Z.of_nat (processed + c)) (job.initialTodoCount sj))
  ∧ 0 ≤ percentDone_spec (Z.of_nat (processed + c)) (job.initialTodoCount sj) < 100.
Proof.
  unfold count_identity, percentDone_expr. intros Hid Hc Hpos.
  assert (0 < job.initialTodoCount sj) as Hn by lia.
  destruct (Z.eqb_spec (job.initialTodoCount sj) 0) as [H0|_]; [lia|].
  rewrite Qfloor_percent_l, percentDone_spec_div by done.
  replace (job.initialTodoCount sj - Z.of_nat (size (job.todoQueue sj)) + Z.of_nat c)
    with (Z.of_nat (processed + c)) by lia.
  split; [done|]. apply percent_bounds; lia.
Qed.

(** C4.  A batch that commits claimed cases stores
    floor(99.99 * processed / initialTodoCount) in [percentDone], where
    processed counts the cases processed up to and including this batch; the
    stored value lies in 0..99, so it is below 100 also when the batch empties
    the queue; with initialTodoCount = 10 the fifth case gives 49. *)
Theorem batch_commit_percentDone jobId ac db sj processed db' c sj' :
  jobs db !! jobId = Some sj →
  count_identity sj processed →
  transaction (selectJobBatch jobId ac) db = (db', Ok c) →
  c ≠ 0%nat →
  jobs db' !! jobId = Some sj' →
  job.percentDone sj'
  = percentDone_spec (Z.of_nat (processed + c)) (job.initialTodoCount sj')
  ∧ 0 ≤ job.percentDone sj' < 100
  ∧ (job.todoQueue sj' = ∅ → job.percentDone sj' = 99)
  ∧ (job.initialTodoCount sj' = 10 → (processed + c = 5)%nat →
     job.percentDone sj' = 49).
Proof.
  intros Hj Hid Hrun Hc Hj'.
  apply selectJobBatch_Ok in Hrun
    as [(-> & _)|(sj0 & cas & rs & pd & Hj0 & Hsel & Hin & Hfor & Hpd & _ & -> & ->)];
    [done|].
  assert (sj0 = sj) as -> by congruence.
  cbn in Hj'. rewrite lookup_insert_eq in Hj'. injection Hj' as <-. cbn.
  assert (1 ≤ size (job.todoQueue sj))%nat as Hsz.
  { pose proof (size_todoQueue_claim _ _ Hin). lia. }
  destruct (percentDone_expr_count_identity sj processed 1 Hid Hsz) as [Hexpr Hb];
    [lia|].
  rewrite Hexpr in Hpd. injection Hpd as <-.
  split; [done|]. split; [done|]. split.
  - intros Hempty.
    assert (size (job.todoQueue sj) = 1)%nat as Hone.
    { pose proof (size_todoQueue_claim _ _ Hin) as Hs.
      rewrite (right_id_L ∅ (∪)) in Hempty. rewrite Hempty, size_empty in Hs. lia. }
    unfold count_identity in Hid.
    rewrite percentDone_spec_div by lia.
    replace (Z.of_nat (processed + 1)) with (job.initialTodoCount sj) by lia.
    assert (0 < job.initialTodoCount sj) as Hn by lia.
    symmetry. apply Z.div_unique with (r := 99 * job.initialTodoCount sj); lia.
  - intros -> ->. reflexivity.
Qed.


(** ** The evaluation loops *)



Lemma forSpecimens_fault ac cas pat specs acc spec e :
  spec ∈ specs → isSelectable ac cas pat spec = Throw e →
  ∃ e' spec', spec' ∈ specs ∧ isSelectable ac cas pat spec' = Throw e'
              ∧ forSpecimens ac cas pat specs acc = Throw e'.
Proof.
  revert acc. induction specs as [|s specs IH]; intros acc Hin He.
  { by apply elem_of_nil in Hin. }
  cbn. destruct (isSelectable ac cas pat s) as [b|e1] eqn:Hs.
  - apply elem_of_cons in Hin as [->|Hin]; [congruence|].
    destruct b.
    + destruct (IH (acc ++ [dataset.specimen_id s])%list Hin He)
        as (e' & s' & Hs' & He' & ->).
      exists e', s'. split; [by right|done].
    + destruct (IH acc Hin He) as (e' & s' & Hs' & He' & ->).
      exists e', s'. split; [by right|done].
  - exists e1, s. split; [left|done].
Qed.

Lemma forPatients_fault ac cas pats acc pat spec e :
  pat ∈ pats → spec ∈ default [] (dataset.specimens pat) →
  isSelectable ac cas pat spec = Throw e →
  ∃ e' pat' spec',
    pat' ∈ pats ∧ spec' ∈ default [] (dataset.specimens pat')
    ∧ isSelectable ac cas pat' spec' = Throw e'
    ∧ forPatients ac cas pats acc = Throw e'.
Proof.
  revert acc. induction pats as [|p pats IH]; intros acc Hin Hspec He.
  { by apply elem_of_nil in Hin. }
  cbn.
  destruct (forSpecimens ac cas p (default [] (dataset.specimens p)) acc)
    as [acc'|e1] eqn:Hp.
  - apply elem_of_cons in Hin as [->|Hin].
    { destruct (forSpecimens_fault ac cas p _ acc spec e Hspec He)
        as (e' & s' & _ & _ & Hthrow). congruence. }
    destruct (IH acc' Hin Hspec He) as (e' & p' & s' & Hp' & Hs' & He' & ->).
    exists e', p', s'. split; [by right|done].
  - (* the fault comes from a specimen of [p] *)
    assert (∃ s, s ∈ default [] (dataset.specimens p)
                 ∧ isSelectable ac cas p s = Throw e1) as (s & Hs & Hs1).
    { clear -Hp. revert acc Hp.
      induction (default [] (dataset.specimens p)) as [|s specs IHs];
        intros acc Hp; [discriminate|].
      cbn in Hp. destruct (isSelectable ac cas p s) as [b|e2] eqn:Hs.
      - destruct b; apply IHs in Hp as (s' & Hin' & He'); exists s';
          (split; [by right|done]).
      - injection Hp as ->. exists s. split; [left|done]. }
    exists e1, p, s. split; [left|done].
Qed.

Lemma forCases_fault_one ac cas e :
  evaluator_fault isSelectable ac [cas] e →
  ∃ e', evaluator_fault isSelectable ac [cas] e'
        ∧ forCases ac [cas] [] = Throw e'.
Proof.
  intros (cas' & pat & spec & Hcas & Hpat & Hspec & He).
  apply list_elem_of_singleton in Hcas as ->.
  destruct (forPatients_fault ac cas _ [] pat spec e Hpat Hspec He)
    as (e' & p' & s' & Hp' & Hs' & He' & Hthrow).
  exists e'. split.
  - exists cas, p', s'. split; [left|done].
  - cbn. change (JobsService.forPatients isSelectable) with forPatients.
    by rewrite Hthrow.
Qed.

(** ** The loop *)

Lemma differenceInSeconds_monotone_clock startTime now :
  startTime ≤ now → (differenceInSeconds startTime now <? 10) = true.
Proof.
  intros Hle. apply Z.ltb_lt. unfold differenceInSeconds.
  assert ((startTime - now) ÷ 1000 ≤ 0 ÷ 1000) as H.
  { apply Z.quot_le_mono; lia. }
  change (0 ÷ 1000) with 0 in H. lia.
Qed.

(* The job over one batch: it stays in the database, its queue can only
   shrink and its selection can only grow. *)
Lemma selectJobBatch_job jobId ac db sj db' r :
  jobs db !! jobId = Some sj →
  transaction (selectJobBatch jobId ac) db = (db', r) →
  ∃ sj', jobs db' !! jobId = Some sj'
         ∧ job.todoQueue sj' ⊆ job.todoQueue sj
         ∧ job.selectedSpecimens sj ⊆ job.selectedSpecimens sj'
         ∧ job.initialTodoCount sj' = job.initialTodoCount sj
         ∧ job.messages sj' = job.messages sj
         ∧ match r with
           | Ok c => (size (job.todoQueue sj') + c = size (job.todoQueue sj))%nat
           | Throw _ => True
           end.
Proof.
  intros Hj Hrun. destruct r as [c|e].
  - apply selectJobBatch_Ok in Hrun
      as [(-> & -> & _)|(sj0 & cas & rs & pd & Hj0 & Hsel & Hin & _ & _ & _ & -> & ->)].
    + exists sj. repeat split; try done; lia.
    + assert (sj0 = sj) as -> by congruence.
      exists (committed sj [cas] rs pd). cbn. rewrite lookup_insert_eq.
      repeat split; try done.
      * apply subseteq_difference_l. done.
      * apply union_subseteq_l.
      * rewrite union_empty_r_L. by apply size_todoQueue_claim.
  - apply selectJobBatch_Throw in Hrun as ->. exists sj. repeat split; done.
Qed.

Lemma doSelectJobWork_loop_job jobId ac startTime clock :
  ∀ processedCount db sj out r,
    jobs db !! jobId = Some sj →
    doSelectJobWork_loop jobId ac startTime clock processedCount db
    = Some (out, r) →
    ∃ sj', jobs out !! jobId = Some sj'
           ∧ job.todoQueue sj' ⊆ job.todoQueue sj
           ∧ job.selectedSpecimens sj ⊆ job.selectedSpecimens sj'
           ∧ job.initialTodoCount sj' = job.initialTodoCount sj
           ∧ job.messages sj' = job.messages sj
           ∧ match r with
             | Ok n => (processedCount ≤ n
                        ∧ size (job.todoQueue sj') + (n - processedCount)
                          = size (job.todoQueue sj))%nat
             | Throw _ => True
             end.
Proof.
  induction clock as [|now clock IH]; intros pc db sj out r Hj Hrun;
    [discriminate|].
  cbn in Hrun.
  destruct (differenceInSeconds startTime now <? 10).
  2:{ injection Hrun as <- <-. exists sj. repeat split; try done; lia. }
  destruct (transaction (selectJobBatch jobId ac) db) as [db1 [c|e]] eqn:Hb.
  - destruct (selectJobBatch_job _ _ _ _ _ _ Hj Hb)
      as (sj1 & Hj1 & Hq1 & Hs1 & Hn1 & Hm1 & Hsz1).
    destruct (Nat.eqb_spec c 0) as [->|Hc].
    + injection Hrun as <- <-. exists sj1. repeat split; try done; lia.
    + destruct (IH _ _ _ _ _ Hj1 Hrun) as (sj' & Hj' & Hq' & Hs' & Hn' & Hm' & Hr).
      exists sj'. repeat split; try done.
      * by transitivity (job.todoQueue sj1).
      * by transitivity (job.selectedSpecimens sj1).
      * congruence.
      * congruence.
      * destruct r as [n|e]; [|done]. lia.
  - injection Hrun as <- <-.
    destruct (selectJobBatch_job _ _ _ _ _ _ Hj Hb)
      as (sj1 & Hj1 & Hq1 & Hs1 & Hn1 & Hm1 & _).
    exists sj1. repeat split; done.
Qed.



(* The budget is not read. *)
Lemma doSelectJobWork_budget jobId budget1 budget2 clock db :
  doSelectJobWork jobId budget1 clock db = doSelectJobWork jobId budget2 clock db.
Proof. reflexivity. Qed.

Lemma forCases_returns ac cas :
  (∀ pat spec, ∃ b, isSelectable ac cas pat spec = Ok b) →
  ∃ resultSpecimens, forCases ac [cas] [] = Ok resultSpecimens.
Proof.
  intros Hok.
  assert (∀ pat specs acc, ∃ rs, forSpecimens ac cas pat specs acc = Ok rs)
    as Hspecs.
  { intros pat specs. induction specs as [|spec specs IH]; intros acc;
      [by eexists|].
    cbn. destruct (Hok pat spec) as [b ->]. destruct b; apply IH. }
  assert (∀ pats acc, ∃ rs, forPatients ac cas pats acc = Ok rs) as Hpats.
  { intros pats. induction pats as [|pat pats IH]; intros acc; [by eexists|].
    cbn. change (JobsService.forSpecimens isSelectable) with forSpecimens.
    destruct (Hspecs pat (default [] (dataset.specimens pat)) acc) as [rs ->].
    apply IH. }
  cbn. change (JobsService.forPatients isSelectable) with forPatients.
  destruct (Hpats (default [] (dataset.patients cas)) []) as [rs ->].
  by eexists.
Qed.

(* On a clock that does not run backwards the loop goes on until the queue
   is empty, however much time passes: with every queued case in the
   database and an evaluator that does not throw, it returns the number of
   cases that were queued, added to the count it started with, and leaves
   the queue empty. *)
Lemma doSelectJobWork_loop_drains jobId ac startTime clock :
  ∀ processedCount db sj processed,
    jobs db !! jobId = Some sj →
    count_identity sj processed →
    (∀ id, id ∈ job.todoQueue sj → is_Some (datasetCases db !! id)) →
    (∀ cas pat spec, ∃ b, isSelectable ac cas pat spec = Ok b) →
    Forall (λ now, startTime ≤ now) clock →
    (size (job.todoQueue sj) < length clock)%nat →
    ∃ out sj',
      doSelectJobWork_loop jobId ac startTime clock processedCount db
      = Some (out, Ok (processedCount + size (job.todoQueue sj))%nat)
      ∧ jobs out !! jobId = Some sj'
      ∧ job.todoQueue sj' = ∅.
Proof.
  induction clock as [|now clock IH];
    intros pc db sj p Hj Hid Href Hok Hclock Hlen; [cbn in Hlen; lia|].
  apply Forall_cons in Hclock as [Hnow Hclock].
  cbn. rewrite (differenceInSeconds_monotone_clock _ _ Hnow).
  change (JobsService.selectJobBatch isSelectable selectOrder) with selectJobBatch.
  rewrite transaction_selectJobBatch. cbv zeta.
  destruct (select_todoQueue jobId 1 db) as [|cas cs] eqn:Hsel.
  - (* nothing to claim: the queue is empty *)
    assert (job.todoQueue sj = ∅) as Hempty.
    { apply leibniz_equiv, elem_of_equiv_empty. intros id Hin.
      pose proof (select_todoQueue_nil _ _ _ Hj Hsel id Hin) as Hnone.
      destruct (Href id Hin) as [ps Hps]. congruence. }
    rewrite forCases_nil, Hj. cbn.
    exists db, sj. rewrite Hempty, size_empty, Nat.add_0_r. done.
  - destruct (select_todoQueue_one _ _ _ _ _ Hj Hsel) as [-> Hin].
    destruct (forCases_returns ac cas (Hok cas)) as [rs Hfor].
    rewrite Hfor, Hj. change (length [cas]) with 1%nat.
    assert (1 ≤ size (job.todoQueue sj))%nat as Hsz.
    { pose proof (size_todoQueue_claim _ _ Hin). lia. }
    destruct (percentDone_expr_count_identity sj p 1 Hid Hsz) as [Hexpr Hb];
      [lia|].
    rewrite Hexpr.
    set (pd := percentDone_spec (Z.of_nat (p + 1)) (job.initialTodoCount sj)) in *.
    assert (check_percentDone pd = Ok pd) as ->.
    { unfold check_percentDone.
      destruct (Z.ltb_spec pd (-32768)); [lia|].
      destruct (Z.ltb_spec 32767 pd); [lia|].
      destruct (Z.ltb_spec pd 0); [lia|].
      destruct (Z.ltb_spec 100 pd); [lia|]. done. }
    cbn [Nat.eqb].
    pose proof (size_todoQueue_claim _ _ Hin) as Hclaim.
    destruct (IH (pc + 1)%nat
                (set_jobs <[jobId := committed sj [cas] rs pd]> db)
                (committed sj [cas] rs pd) (p + 1)%nat)
      as (out & sj' & Hloop & Hj' & Hq'); try done.
    + cbn. apply lookup_insert_eq.
    + by apply committed_count_identity.
    + cbn. intros id Hid'. apply Href.
      by apply elem_of_difference in Hid' as [? _].
    + cbn. rewrite union_empty_r_L. cbn in Hlen. lia.
    + exists out, sj'. split; [|done].
      rewrite Hloop. cbn. rewrite union_empty_r_L.
      do 3 f_equal. lia.
Qed.

(** C9.  When [isSelectable] throws on a specimen of the case a batch has
    claimed, the transaction of the batch leaves the database exactly as it
    was (queue, selection and percentDone included) and rethrows a fault of
    the evaluator; the loop and [doSelectJobWork] pass that fault on to
    their caller with the database still unchanged, so the next call claims
    from the same queue. *)
Theorem evaluator_fault_aborts_batch jobId db sj e startTime now clock
    processedCount roughlyMaxSeconds :
  jobs db !! jobId = Some sj →
  let ac := release.applicationCoded <$> releases db !! job.forRelease sj in
  evaluator_fault isSelectable ac (select_todoQueue jobId 1 db) e →
  startTime ≤ now →
  ∃ e',
    evaluator_fault isSelectable ac (select_todoQueue jobId 1 db) e'
    ∧ transaction (selectJobBatch jobId ac) db = (db, Throw e')
    ∧ doSelectJobWork_loop jobId ac startTime (now :: clock) processedCount db
      = Some (db, Throw e')
    ∧ doSelectJobWork jobId roughlyMaxSeconds (startTime :: now :: clock) db
      = Some (db, Throw e').
Proof.
  intros Hj ac Hfault Hclock.
  assert (∃ cas, select_todoQueue jobId 1 db = [cas]) as [cas Hsel].
  { destruct (select_todoQueue jobId 1 db) as [|cas cs] eqn:Hsel.
    - destruct Hfault as (c & _ & _ & Hc & _). by apply elem_of_nil in Hc.
    - destruct (select_todoQueue_one _ _ _ _ _ Hj Hsel) as [-> _]. by exists cas. }
  rewrite Hsel in Hfault |- *.
  destruct (forCases_fault_one ac cas e Hfault) as (e' & Hfault' & Hthrow).
  assert (transaction (selectJobBatch jobId ac) db = (db, Throw e')) as Hbatch.
  { rewrite transaction_selectJobBatch. cbv zeta. by rewrite Hsel, Hthrow. }
  assert (∀ pc, doSelectJobWork_loop jobId ac startTime (now :: clock) pc db
                = Some (db, Throw e')) as Hloop.
  { intros pc. cbn. rewrite (differenceInSeconds_monotone_clock _ _ Hclock).
    change (JobsService.selectJobBatch isSelectable selectOrder) with selectJobBatch.
    by rewrite Hbatch. }
  exists e'. repeat split; try done.
  unfold JobsService.doSelectJobWork. rewrite Hj. apply Hloop.
Qed.

(** ** More on the batch and the loop *)

(* A batch either leaves the database as it is or writes the job back. *)
Lemma selectJobBatch_cases jobId ac db db' r :
  transaction (selectJobBatch jobId ac) db = (db', r) →
  db' = db
  ∨ ∃ sj casesFromQueue resultSpecimens pd,
      jobs db !! jobId = Some sj
      ∧ db' = set_jobs
                <[jobId := committed sj casesFromQueue resultSpecimens pd]> db.
Proof.
  rewrite transaction_selectJobBatch. cbv zeta.
  destruct (forCases ac (select_todoQueue jobId 1 db) []) as [rs|e];
    [|intros [= <- <-]; by left].
  destruct (jobs db !! jobId) as [sj|] eqn:Hj; [|intros [= <- <-]; by left].
  destruct (select_todoQueue jobId 1 db) as [|cas cs];
    [intros [= <- <-]; by left|].
  destruct (percentDone_expr sj (length (cas :: cs))) as [v|e];
    [|intros [= <- <-]; by left].
  destruct (check_percentDone v) as [pd|e]; [|intros [= <- <-]; by left].
  intros [= <- <-]. right. by exists sj, (cas :: cs), rs, pd.
Qed.

(* What a batch leaves alone, whatever its outcome. *)
Lemma selectJobBatch_frame jobId ac db db' r :
  transaction (selectJobBatch jobId ac) db = (db', r) →
  releases db' = releases db
  ∧ datasetCases db' = datasetCases db
  ∧ datetime_current db' = datetime_current db
  ∧ (∀ jid, jid ≠ jobId → jobs db' !! jid = jobs db !! jid)
  ∧ (∀ sj, jobs db !! jobId = Some sj →
       ∃ sj', jobs db' !! jobId = Some sj'
              ∧ job.status sj' = job.status sj
              ∧ job.forRelease sj' = job.forRelease sj
              ∧ job.requestedCancellation sj' = job.requestedCancellation sj
              ∧ job.created sj' = job.created sj
              ∧ job.started sj' = job.started sj
              ∧ job.ended sj' = job.ended sj)
  ∧ (jobs db !! jobId = None → jobs db' !! jobId = None).
Proof.
  intros Hrun. apply selectJobBatch_cases in Hrun
    as [->|(sj & cs & rs & pd & Hj & ->)].
  - repeat split; try done. intros sj Hj. by exists sj.
  - cbn. repeat split; try done.
    + intros jid Hne. by rewrite lookup_insert_ne.
    + intros sj0 Hj0. assert (sj0 = sj) as -> by congruence.
      eexists. rewrite lookup_insert_eq. done.
    + intros Hnone. congruence.
Qed.

Lemma doSelectJobWork_loop_frame jobId ac startTime clock :
  ∀ processedCount db out r,
    doSelectJobWork_loop jobId ac startTime clock processedCount db
    = Some (out, r) →
    releases out = releases db
    ∧ datasetCases out = datasetCases db
    ∧ datetime_current out = datetime_current db
    ∧ (∀ jid, jid ≠ jobId → jobs out !! jid = jobs db !! jid)
    ∧ (∀ sj, jobs db !! jobId = Some sj →
         ∃ sj', jobs out !! jobId = Some sj'
                ∧ job.status sj' = job.status sj
                ∧ job.forRelease sj' = job.forRelease sj
                ∧ job.requestedCancellation sj' = job.requestedCancellation sj
                ∧ job.created sj' = job.created sj
                ∧ job.started sj' = job.started sj
                ∧ job.ended sj' = job.ended sj).
Proof.
  induction clock as [|now clock IH]; intros pc db out r Hrun; [discriminate|].
  cbn in Hrun.
  destruct (differenceInSeconds startTime now <? 10).
  2:{ injection Hrun as <- <-. repeat split; try done. intros sj Hj. by exists sj. }
  destruct (transaction (selectJobBatch jobId ac) db) as [db1 [c|e]] eqn:Hb.
  - apply selectJobBatch_frame in Hb as (Hr & Hd & Ht & Ho & Hj1 & _).
    destruct (Nat.eqb_spec c 0) as [->|Hc].
    + injection Hrun as <- <-. done.
    + apply IH in Hrun as (Hr' & Hd' & Ht' & Ho' & Hj').
      split; [congruence|]. split; [congruence|]. split; [congruence|].
      split.
      * intros jid Hne. rewrite Ho' by done. by apply Ho.
      * intros sj Hj. destruct (Hj1 sj Hj) as (sj1 & Hsj1 & ?&?&?&?&?&?).
        destruct (Hj' sj1 Hsj1) as (sj' & Hsj' & ?&?&?&?&?&?).
        exists sj'. repeat split; congruence.
  - injection Hrun as <- <-.
    apply selectJobBatch_frame in Hb as (Hr & Hd & Ht & Ho & Hj1 & _). done.
Qed.

(** X1.  A call of [doSelectJobWork] that returns or throws has changed
    nothing but the job it was called for: the releases, the dataset cases
    and every other job are as before, and of the job itself only
    [todoQueue] (which can only shrink), [selectedSpecimens] (which can only
    grow) and [percentDone] can differ. *)
Theorem doSelectJobWork_frame jobId roughlyMaxSeconds clock db out r :
  doSelectJobWork jobId roughlyMaxSeconds clock db = Some (out, r) →
  releases out = releases db
  ∧ datasetCases out = datasetCases db
  ∧ (∀ jid, jid ≠ jobId → jobs out !! jid = jobs db !! jid)
  ∧ (jobs db !! jobId = None → out = db)
  ∧ (∀ sj, jobs db !! jobId = Some sj →
       ∃ sj', jobs out !! jobId = Some sj'
              ∧ sj' = with_todoQueue_percentDone (job.todoQueue sj')
                        (job.percentDone sj')
                        (with_selectedSpecimens (job.selectedSpecimens sj') sj)
              ∧ job.todoQueue sj' ⊆ job.todoQueue sj
              ∧ job.selectedSpecimens sj ⊆ job.selectedSpecimens sj').
Proof.
  unfold JobsService.doSelectJobWork.
  destruct (jobs db !! jobId) as [sj|] eqn:Hj.
  2:{ intros [= <- <-]. repeat split; done. }
  destruct clock as [|startTime clock]; [discriminate|].
  intros Hrun.
  pose proof (doSelectJobWork_loop_frame _ _ _ _ _ _ _ _ Hrun)
    as (Hr & Hd & _ & Ho & Hf).
  pose proof (doSelectJobWork_loop_job _ _ _ _ _ _ _ _ _ Hj Hrun)
    as (sj' & Hj' & Hq & Hs & Hn & Hm & _).
  split; [done|]. split; [done|]. split; [done|]. split; [done|].
  intros sj0 [= <-]. exists sj'. split; [done|].
  destruct (Hf sj Hj) as (sj1 & Hj1 & Hst & Hrel & Hrc & Hcr & Hsta & Hen).
  assert (sj1 = sj') as -> by congruence.
  split; [|done].
  destruct sj', sj. unfold with_todoQueue_percentDone, with_selectedSpecimens.
  cbn in *. by subst.
Qed.

(** ** Progress *)

Lemma percentDone_spec_mono (p p' n : Z) :
  0 < n → p ≤ p' → percentDone_spec p n ≤ percentDone_spec p' n.
Proof.
  intros Hn Hle. rewrite !percentDone_spec_div by done.
  apply Z.div_le_mono; lia.
Qed.

Lemma selectJobBatch_progress jobId ac db sj processed db' r :
  jobs db !! jobId = Some sj →
  progress_recorded sj processed →
  transaction (selectJobBatch jobId ac) db = (db', r) →
  ∃ sj' processed',
    jobs db' !! jobId = Some sj'
    ∧ (processed ≤ processed')%nat
    ∧ progress_recorded sj' processed'
    ∧ job.percentDone sj ≤ job.percentDone sj'
    ∧ match r with
      | Ok c => processed' = (processed + c)%nat
      | Throw _ => processed' = processed
      end.
Proof.
  intros Hj [Hid Hpd] Hrun. destruct r as [c|e].
  - apply selectJobBatch_Ok in Hrun
      as [(-> & -> & _)|(sj0 & cas & rs & pd & Hj0 & Hsel & Hin & _ & Hexpr & _ & -> & ->)].
    + exists sj, processed. rewrite Nat.add_0_r.
      split; [done|]. split; [lia|]. split; [by split|]. split; [lia|done].
    + assert (sj0 = sj) as -> by congruence.
      assert (1 ≤ size (job.todoQueue sj))%nat as Hsz.
      { pose proof (size_todoQueue_claim _ _ Hin). lia. }
      destruct (percentDone_expr_count_identity sj processed 1 Hid Hsz)
        as [Hexpr' Hb]; [lia|].
      assert (pd = percentDone_spec (Z.of_nat (processed + 1))
                     (job.initialTodoCount sj)) as -> by congruence.
      exists (committed sj [cas] rs
                (percentDone_spec (Z.of_nat (processed + 1))
                   (job.initialTodoCount sj))), (processed + 1)%nat.
      cbn -[Z.of_nat Nat.add percentDone_spec]. rewrite lookup_insert_eq.
      split; [done|]. split; [lia|]. split.
      * split; [by apply committed_count_identity|done].
      * split; [|done]. rewrite Hpd. apply percentDone_spec_mono; [|lia].
        unfold count_identity in Hid. lia.
  - apply selectJobBatch_Throw in Hrun as ->.
    exists sj, processed.
    split; [done|]. split; [lia|]. split; [by split|]. split; [lia|done].
Qed.

(** X2.  When [percentDone] of a job is the progress formula
    floor(99.99 * processed / initialTodoCount) of the cases processed so
    far, a call of [doSelectJobWork] keeps it so: afterwards [percentDone] is
    the formula of the cases processed by then, it has not gone down, and it
    is still below 100.  This holds for the batches committed before a throw
    as well. *)
Theorem doSelectJobWork_percentDone_monotone jobId roughlyMaxSeconds clock db
    sj processed out r :
  jobs db !! jobId = Some sj →
  progress_recorded sj processed →
  doSelectJobWork jobId roughlyMaxSeconds clock db = Some (out, r) →
  ∃ sj' processed',
    jobs out !! jobId = Some sj'
    ∧ (processed ≤ processed')%nat
    ∧ progress_recorded sj' processed'
    ∧ job.percentDone sj ≤ job.percentDone sj' < 100
    ∧ match r with
      | Ok n => processed' = (processed + n)%nat
      | Throw _ => True
      end.
Proof.
  intros Hj Hprog. unfold JobsService.doSelectJobWork. rewrite Hj.
  destruct clock as [|startTime clock]; [discriminate|].
  set (ac := release.applicationCoded <$> releases db !! job.forRelease sj).
  clearbody ac.
  assert (∀ pc db sj processed out r,
            jobs db !! jobId = Some sj →
            progress_recorded sj processed →
            doSelectJobWork_loop jobId ac startTime clock pc db = Some (out, r) →
            ∃ sj' processed',
              jobs out !! jobId = Some sj'
              ∧ (processed ≤ processed')%nat
              ∧ progress_recorded sj' processed'
              ∧ job.percentDone sj ≤ job.percentDone sj'
              ∧ match r with
                | Ok n => (pc ≤ n ∧ processed' = processed + (n - pc))%nat
                | Throw _ => True
                end) as Hloop.
  { clear Hj Hprog. induction clock as [|now clock IH];
      intros pc db0 sj0 p out0 r0 Hj Hprog Hrun; [discriminate|].
    cbn in Hrun.
    destruct (differenceInSeconds startTime now <? 10).
    2:{ injection Hrun as <- <-. exists sj0, p.
        split; [done|]. split; [lia|]. split; [done|]. split; lia. }
    destruct (transaction (selectJobBatch jobId ac) db0) as [db1 [c|e]] eqn:Hb.
    - destruct (selectJobBatch_progress _ _ _ _ _ _ _ Hj Hprog Hb)
        as (sj1 & p1 & Hj1 & Hle1 & Hprog1 & Hpd1 & ->).
      destruct (Nat.eqb_spec c 0) as [->|Hc].
      + injection Hrun as <- <-. exists sj1, (p + 0)%nat.
        split; [done|]. split; [lia|]. split; [done|]. split; lia.
      + destruct (IH _ _ _ _ _ _ Hj1 Hprog1 Hrun)
          as (sj' & p' & Hj' & Hle' & Hprog' & Hpd' & Hr).
        exists sj', p'. split; [done|]. split; [lia|]. split; [done|].
        split; [lia|]. destruct r0 as [n|e]; [lia|done].
    - injection Hrun as <- <-.
      destruct (selectJobBatch_progress _ _ _ _ _ _ _ Hj Hprog Hb)
        as (sj1 & p1 & Hj1 & Hle1 & Hprog1 & Hpd1 & ->).
      exists sj1, p.
      split; [done|]. split; [lia|]. split; [done|]. split; [lia|done]. }
  intros Hrun.
  destruct (Hloop _ _ _ _ _ _ Hj Hprog Hrun)
    as (sj' & p' & Hj' & Hle & Hprog' & Hpd & Hr).
  exists sj', p'. split; [done|]. split; [done|]. split; [done|]. split.
  - split; [done|]. destruct Hprog' as [Hid' Hpd']. rewrite Hpd'.
    unfold count_identity in Hid'.
    destruct (Z.eq_dec (job.initialTodoCount sj') 0) as [H0|Hn0].
    + rewrite H0. assert (p' = 0%nat) as -> by lia. vm_compute. done.
    + rewrite percentDone_spec_div by lia.
      apply percent_bounds; lia.
  - destruct r as [n|e]; [|done]. lia.
Qed.

(** ** What gets selected *)

Lemma forSpecimens_elem ac cas pat specs acc rs :
  forSpecimens ac cas pat specs acc = Ok rs →
  ∀ s, s ∈ rs
       ↔ s ∈ acc
         ∨ ∃ spec, spec ∈ specs
                   ∧ isSelectable ac cas pat spec = Ok true
                   ∧ dataset.specimen_id spec = s.
Proof.
  revert acc. induction specs as [|spec specs IH]; intros acc Hrun s.
  { injection Hrun as <-. split; [by left|].
    intros [?|(spec & Hin & _)]; [done|by apply elem_of_nil in Hin]. }
  cbn in Hrun.
  destruct (isSelectable ac cas pat spec) as [[|]|e] eqn:Hsel; [| |discriminate].
  - rewrite (IH _ Hrun s), elem_of_app, list_elem_of_singleton. split.
    + intros [[? | ->]|(spec' & Hin & Hok & Hid)].
      * by left.
      * right. exists spec. split; [left|done].
      * right. exists spec'. split; [by right|done].
    + intros [?|(spec' & Hin & Hok & Hid)]; [by left; left|].
      apply elem_of_cons in Hin as [->|Hin].
      * left. by right.
      * right. by exists spec'.
  - rewrite (IH _ Hrun s). split.
    + intros [?|(spec' & Hin & Hok & Hid)]; [by left|].
      right. exists spec'. split; [by right|done].
    + intros [?|(spec' & Hin & Hok & Hid)]; [by left|].
      apply elem_of_cons in Hin as [->|Hin]; [congruence|].
      right. by exists spec'.
Qed.

Lemma forPatients_elem ac cas pats acc rs :
  forPatients ac cas pats acc = Ok rs →
  ∀ s, s ∈ rs
       ↔ s ∈ acc
         ∨ ∃ pat spec, pat ∈ pats
                       ∧ spec ∈ default [] (dataset.specimens pat)
                       ∧ isSelectable ac cas pat spec = Ok true
                       ∧ dataset.specimen_id spec = s.
Proof.
  revert acc. induction pats as [|pat pats IH]; intros acc Hrun s.
  { injection Hrun as <-. split; [by left|].
    intros [?|(pat & spec & Hin & _)]; [done|by apply elem_of_nil in Hin]. }
  cbn in Hrun.
  destruct (forSpecimens ac cas pat (default [] (dataset.specimens pat)) acc)
    as [acc'|e] eqn:Hspecs; [|discriminate].
  rewrite (IH _ Hrun s), (forSpecimens_elem _ _ _ _ _ _ Hspecs s). split.
  - intros [[?|(spec & Hin & Hok & Hid)]|(pat' & spec & Hin & Hrest)].
    + by left.
    + right. exists pat, spec. split; [left|done].
    + right. exists pat', spec. split; [by right|done].
  - intros [?|(pat' & spec & Hin & Hspec & Hok & Hid)]; [by left; left|].
    apply elem_of_cons in Hin as [->|Hin].
    + left. right. by exists spec.
    + right. by exists pat', spec.
Qed.

Lemma forCases_one_elem ac cas rs :
  forCases ac [cas] [] = Ok rs →
  ∀ s, s ∈ rs ↔ approves isSelectable ac cas s.
Proof.
  cbn. change (JobsService.forPatients isSelectable) with forPatients.
  destruct (forPatients ac cas (default [] (dataset.patients cas)) [])
    as [rs'|e] eqn:Hpats; [|discriminate].
  intros [= <-] s. rewrite (forPatients_elem _ _ _ _ _ Hpats s).
  unfold approves. split.
  - intros [Hnil|?]; [by apply elem_of_nil in Hnil|done].
  - by right.
Qed.

(** C1.  A batch of [doSelectJobWork] is one transaction.  When it commits it
    has taken exactly the claimed cases (all of them in the queue) off
    [todoQueue] and has recorded their result: the specimens it adds to
    [selectedSpecimens] are exactly the specimens of the claimed cases on
    which [isSelectable] answers true, so afterwards a specimen is selected
    exactly when it was selected before or is such a specimen.  The count
    identity |todoQueue| + casesAlreadyProcessed = initialTodoCount holds
    again with the claimed cases counted as processed.  When the batch
    throws, the database is the one before the batch. *)
Theorem batch_commit_preserves_count_identity jobId ac db sj processed db' r :
  jobs db !! jobId = Some sj →
  count_identity sj processed →
  transaction (selectJobBatch jobId ac) db = (db', r) →
  match r with
  | Throw _ => db' = db
  | Ok c =>
      ∃ sj' claimed resultSpecimens,
        select_todoQueue jobId 1 db = claimed
        ∧ c = length claimed
        ∧ forCases ac claimed [] = Ok resultSpecimens
        ∧ (∀ s, s ∈ resultSpecimens
                ↔ ∃ cas, cas ∈ claimed ∧ approves isSelectable ac cas s)
        ∧ jobs db' !! jobId = Some sj'
        ∧ list_to_set (dataset.case_id <$> claimed) ⊆ job.todoQueue sj
        ∧ job.todoQueue sj'
          = job.todoQueue sj ∖ list_to_set (dataset.case_id <$> claimed)
        ∧ job.selectedSpecimens sj'
          = job.selectedSpecimens sj ∪ list_to_set resultSpecimens
        ∧ (∀ s, s ∈ job.selectedSpecimens sj'
                ↔ s ∈ job.selectedSpecimens sj
                  ∨ ∃ cas, cas ∈ claimed ∧ approves isSelectable ac cas s)
        ∧ job.initialTodoCount sj' = job.initialTodoCount sj
        ∧ count_identity sj' (processed + c)
  end.
Proof.
  intros Hj Hid Hrun. destruct r as [c|e].
  2:{ by eapply selectJobBatch_Throw. }
  apply selectJobBatch_Ok in Hrun
    as [(-> & -> & Hnone)|(sj0 & cas & rs & pd & Hj0 & Hsel & Hin & Hfor & _ & _ & -> & ->)].
  - destruct Hnone as [Hnone|Hsel]; [congruence|].
    exists sj, [], []. rewrite Hsel, Nat.add_0_r. cbn.
    split; [done|]. split; [done|]. split; [done|]. split.
    { intros s. split; [by intros ?%elem_of_nil|].
      intros (cas & Hcas & _). by apply elem_of_nil in Hcas. }
    split; [done|]. split; [done|].
    split; [by rewrite difference_empty_L|].
    split; [by rewrite union_empty_r_L|]. split; [|done].
    intros s. split; [by left|].
    intros [?|(cas & Hcas & _)]; [done|by apply elem_of_nil in Hcas].
  - assert (sj0 = sj) as -> by congruence.
    assert (∀ s, s ∈ rs ↔ ∃ cas', cas' ∈ [cas] ∧ approves isSelectable ac cas' s)
      as Hrs.
    { intros s. rewrite (forCases_one_elem _ _ _ Hfor s). split.
      - intros Happ. exists cas. split; [left|done].
      - intros (cas' & Hcas & Happ).
        by apply list_elem_of_singleton in Hcas as ->. }
    exists (committed sj [cas] rs pd), [cas], rs. rewrite Hsel.
    split; [done|]. split; [done|]. split; [done|]. split; [done|].
    split; [cbn; apply lookup_insert_eq|].
    split; [cbn; rewrite union_empty_r_L; by apply singleton_subseteq_l|].
    split; [done|]. split; [done|]. split.
    + intros s. cbn. by rewrite elem_of_union, elem_of_list_to_set, Hrs.
    + split; [done|]. by apply committed_count_identity.
Qed.

(** X3.  A batch that commits adds to [selectedSpecimens] exactly the
    specimens of the claimed case on which [isSelectable] answered true:
    afterwards a specimen is selected when it was selected before or is such
    a specimen, and only then. *)
Theorem batch_selects_approved_specimens jobId ac db sj db' c sj' :
  jobs db !! jobId = Some sj →
  transaction (selectJobBatch jobId ac) db = (db', Ok c) →
  jobs db' !! jobId = Some sj' →
  ∀ s, s ∈ job.selectedSpecimens sj'
       ↔ s ∈ job.selectedSpecimens sj
         ∨ ∃ cas, cas ∈ select_todoQueue jobId 1 db
                  ∧ approves isSelectable ac cas s.
Proof.
  intros Hj Hrun Hj' s.
  apply selectJobBatch_Ok in Hrun
    as [(-> & -> & Hnone)|(sj0 & cas & rs & pd & Hj0 & Hsel & Hin & Hfor & _ & _ & -> & ->)].
  - assert (sj' = sj) as -> by congruence.
    destruct Hnone as [Hnone|Hsel]; [congruence|]. rewrite Hsel. split.
    + by left.
    + intros [?|(cas & Hcas & _)]; [done|by apply elem_of_nil in Hcas].
  - assert (sj0 = sj) as -> by congruence.
    cbn in Hj'. rewrite lookup_insert_eq in Hj'. injection Hj' as <-.
    cbn. rewrite Hsel, elem_of_union, elem_of_list_to_set.
    rewrite (forCases_one_elem _ _ _ Hfor s). split.
    + intros [?|?]; [by left|]. right. exists cas. split; [left|done].
    + intros [?|(cas' & Hcas & Happ)]; [by left|].
      apply list_elem_of_singleton in Hcas as ->. by right.
Qed.

(** ** A whole run *)

Lemma percentDone_spec_all (n : Z) : 0 < n → percentDone_spec n n = 99.
Proof.
  intros Hn. rewrite percentDone_spec_div by done.
  symmetry. apply Z.div_unique with (r := 99 * n); lia.
Qed.

Lemma doSelectJobWork_loop_complete jobId ac startTime clock :
  ∀ processedCount db sj processed,
    jobs db !! jobId = Some sj →
    count_identity sj processed →
    (∀ id, id ∈ job.todoQueue sj → is_Some (datasetCases db !! id)) →
    (∀ cas pat spec, ∃ b, isSelectable ac cas pat spec = Ok b) →
    Forall (λ now, startTime ≤ now) clock →
    (size (job.todoQueue sj) < length clock)%nat →
    ∃ out sj',
      doSelectJobWork_loop jobId ac startTime clock processedCount db
      = Some (out, Ok (processedCount + size (job.todoQueue sj))%nat)
      ∧ jobs out !! jobId = Some sj'
      ∧ job.todoQueue sj' = ∅
      ∧ (∀ s, s ∈ job.selectedSpecimens sj'
              ↔ s ∈ job.selectedSpecimens sj
                ∨ ∃ id ps,
                    id ∈ job.todoQueue sj
                    ∧ datasetCases db !! id = Some ps
                    ∧ approves isSelectable ac
                        (dataset.Build_DatasetCase id ps) s)
      ∧ job.percentDone sj'
        = (if decide (job.todoQueue sj = ∅) then job.percentDone sj else 99).
Proof.
  induction clock as [|now clock IH];
    intros pc db sj p Hj Hid Href Hok Hclock Hlen; [cbn in Hlen; lia|].
  apply Forall_cons in Hclock as [Hnow Hclock].
  cbn. rewrite (differenceInSeconds_monotone_clock _ _ Hnow).
  change (JobsService.selectJobBatch isSelectable selectOrder) with selectJobBatch.
  destruct (transaction (selectJobBatch jobId ac) db) as [db1 r] eqn:Hb.
  pose proof Hb as Hb0.
  rewrite transaction_selectJobBatch in Hb. cbv zeta in Hb.
  destruct (select_todoQueue jobId 1 db) as [|cas cs] eqn:Hsel.
  - (* nothing to claim: the queue is empty *)
    assert (job.todoQueue sj = ∅) as Hempty.
    { apply leibniz_equiv, elem_of_equiv_empty. intros id Hin.
      pose proof (select_todoQueue_nil _ _ _ Hj Hsel id Hin) as Hnone.
      destruct (Href id Hin) as [ps Hps]. congruence. }
    rewrite forCases_nil, Hj in Hb. injection Hb as <- <-. cbn.
    exists db, sj. rewrite Hempty, size_empty, Nat.add_0_r.
    split; [done|]. split; [done|]. split; [done|]. split.
    + intros s. split; [by left|].
      intros [?|(id & ps & Hin & _)]; [done|].
      by apply not_elem_of_empty in Hin.
    + by rewrite decide_True.
  - destruct (select_todoQueue_one _ _ _ _ _ Hj Hsel) as [-> Hin].
    destruct (forCases_returns ac cas (Hok cas)) as [rs Hfor].
    rewrite Hfor, Hj in Hb. change (length [cas]) with 1%nat in Hb.
    assert (1 ≤ size (job.todoQueue sj))%nat as Hsz.
    { pose proof (size_todoQueue_claim _ _ Hin). lia. }
    destruct (percentDone_expr_count_identity sj p 1 Hid Hsz) as [Hexpr Hb'];
      [lia|].
    rewrite Hexpr in Hb.
    set (pd := percentDone_spec (Z.of_nat (p + 1)) (job.initialTodoCount sj)) in *.
    assert (check_percentDone pd = Ok pd) as Hcheck.
    { unfold check_percentDone.
      destruct (Z.ltb_spec pd (-32768)); [lia|].
      destruct (Z.ltb_spec 32767 pd); [lia|].
      destruct (Z.ltb_spec pd 0); [lia|].
      destruct (Z.ltb_spec 100 pd); [lia|]. done. }
    rewrite Hcheck in Hb. injection Hb as <- <-. cbn [Nat.eqb].
    pose proof (size_todoQueue_claim _ _ Hin) as Hclaim.
    assert (cas ∈ select_todoQueue jobId 1 db) as Hcas by (rewrite Hsel; left).
    destruct (select_todoQueue_elem _ _ _ _ _ Hj Hcas) as [_ Hps].
    destruct (IH (pc + 1)%nat
                (set_jobs <[jobId := committed sj [cas] rs pd]> db)
                (committed sj [cas] rs pd) (p + 1)%nat)
      as (out & sj' & Hloop & Hj' & Hq' & Hs' & Hpd'); try done.
    + cbn. apply lookup_insert_eq.
    + by apply committed_count_identity.
    + cbn. intros id Hid'. apply Href.
      by apply elem_of_difference in Hid' as [? _].
    + cbn. rewrite union_empty_r_L. cbn in Hlen. lia.
    + exists out, sj'. split.
      { rewrite Hloop. cbn. rewrite union_empty_r_L. do 3 f_equal. lia. }
      split; [done|]. split; [done|]. split.
      * intros s. rewrite (Hs' s). cbn.
        rewrite elem_of_union, elem_of_list_to_set, union_empty_r_L.
        rewrite (forCases_one_elem _ _ _ Hfor s). split.
        -- intros [[?|Happ]|(id & ps & Hid' & Hps' & Happ)].
           ++ by left.
           ++ right. exists (dataset.case_id cas), (dataset.patients cas).
              split; [done|]. split; [done|]. destruct cas. exact Happ.
           ++ right. exists id, ps. split; [|done].
              by apply elem_of_difference in Hid' as [? _].
        -- intros [?|(id & ps & Hid' & Hps' & Happ)]; [by left; left|].
           destruct (decide (id = dataset.case_id cas)) as [->|Hne].
           ++ left. right. rewrite Hps in Hps'. injection Hps' as <-.
              by destruct cas.
           ++ right. exists id, ps. split; [|done].
              apply elem_of_difference. split; [done|].
              by intros ->%elem_of_singleton.
      * rewrite Hpd'.
        assert (pd = percentDone_spec (Z.of_nat (p + 1))
                       (job.initialTodoCount sj)) as Hpdv by reflexivity.
        clearbody pd. cbn. rewrite union_empty_r_L.
        rewrite (decide_False (P := job.todoQueue sj = ∅)).
        2:{ intros Hempty. rewrite Hempty in Hin.
            by apply not_elem_of_empty in Hin. }
        destruct (decide (job.todoQueue sj ∖ {[dataset.case_id cas]} = ∅))
          as [Hrest|Hrest]; [|done].
        rewrite Hrest, size_empty in Hclaim.
        rewrite Hpdv. unfold count_identity in Hid.
        replace (Z.of_nat (p + 1)) with (job.initialTodoCount sj) by lia.
        apply percentDone_spec_all. lia.
Qed.

(** X4.  A complete run.  When every queued case is in the database, the
    evaluator does not throw, the clock does not run backwards and has more
    readings than cases are queued, [doSelectJobWork] returns the number of
    cases that were queued, whatever the budget; the queue is then empty, a
    specimen is selected exactly when it was selected before or the
    evaluator approved it in one of the queued cases, and [percentDone] is
    99 unless the queue was empty from the start. *)
Theorem doSelectJobWork_complete jobId roughlyMaxSeconds startTime clock db sj
    processed :
  jobs db !! jobId = Some sj →
  count_identity sj processed →
  (∀ id, id ∈ job.todoQueue sj → is_Some (datasetCases db !! id)) →
  let ac := release.applicationCoded <$> releases db !! job.forRelease sj in
  (∀ cas pat spec, ∃ b, isSelectable ac cas pat spec = Ok b) →
  Forall (λ now, startTime ≤ now) clock →
  (size (job.todoQueue sj) < length clock)%nat →
  ∃ out sj',
    doSelectJobWork jobId roughlyMaxSeconds (startTime :: clock) db
    = Some (out, Ok (size (job.todoQueue sj)))
    ∧ jobs out !! jobId = Some sj'
    ∧ job.todoQueue sj' = ∅
    ∧ (∀ s, s ∈ job.selectedSpecimens sj'
            ↔ s ∈ job.selectedSpecimens sj
              ∨ ∃ id ps,
                  id ∈ job.todoQueue sj
                  ∧ datasetCases db !! id = Some ps
                  ∧ approves isSelectable ac (dataset.Build_DatasetCase id ps) s)
    ∧ (job.todoQueue sj ≠ ∅ → job.percentDone sj' = 99).
Proof.
  intros Hj Hid Href ac Hok Hclock Hlen.
  destruct (doSelectJobWork_loop_complete jobId ac startTime clock 0%nat db sj
              processed Hj Hid Href Hok Hclock Hlen)
    as (out & sj' & Hloop & Hj' & Hq' & Hs' & Hpd').
  exists out, sj'. split.
  { unfold JobsService.doSelectJobWork. rewrite Hj. exact Hloop. }
  split; [done|]. split; [done|]. split; [done|].
  intros Hne. rewrite Hpd'. by rewrite decide_False.
Qed.

(** X5.  On a job whose queue is empty, and so on a job started for a release
    without any case, [doSelectJobWork] returns 0 and leaves the database as
    it is. *)
Theorem doSelectJobWork_empty_queue jobId roughlyMaxSeconds startTime now clock
    db sj :
  jobs db !! jobId = Some sj →
  job.todoQueue sj = ∅ →
  startTime ≤ now →
  doSelectJobWork jobId roughlyMaxSeconds (startTime :: now :: clock) db
  = Some (db, Ok 0%nat).
Proof.
  intros Hj Hempty Hnow.
  unfold JobsService.doSelectJobWork. rewrite Hj. cbn.
  rewrite (differenceInSeconds_monotone_clock _ _ Hnow).
  change (JobsService.selectJobBatch isSelectable selectOrder) with selectJobBatch.
  rewrite transaction_selectJobBatch. cbv zeta.
  assert (select_todoQueue jobId 1 db = []) as ->.
  { unfold JobsService.select_todoQueue. rewrite Hj, Hempty.
    assert (selectOrder ∅ = []) as ->; [|done].
    apply Permutation_nil_r. by rewrite selectOrder_perm, elements_empty. }
  by rewrite forCases_nil, Hj.
Qed.

(** ** Work on a job whose cancellation is requested *)

Lemma select_todoQueue_cancellation_requested jobId n db :
  select_todoQueue jobId n (cancellation_requested jobId db)
  = select_todoQueue jobId n db.
Proof.
  unfold JobsService.select_todoQueue, cancellation_requested. cbn.
  rewrite lookup_alter_eq. by destruct (jobs db !! jobId).
Qed.

Lemma selectJobBatch_cancellation_requested jobId ac db :
  transaction (selectJobBatch jobId ac) (cancellation_requested jobId db)
  = ((cancellation_requested jobId
        (transaction (selectJobBatch jobId ac) db).1),
     (transaction (selectJobBatch jobId ac) db).2).
Proof.
  rewrite !transaction_selectJobBatch. cbv zeta.
  rewrite select_todoQueue_cancellation_requested.
  destruct (forCases ac (select_todoQueue jobId 1 db) []) as [rs|e]; [|done].
  assert (jobs (cancellation_requested jobId db) !! jobId
          = with_requestedCancellation true <$> jobs db !! jobId) as ->.
  { unfold cancellation_requested. cbn. apply lookup_alter_eq. }
  destruct (jobs db !! jobId) as [sj|]; [|done]. cbn [fmap option_fmap option_map].
  destruct (select_todoQueue jobId 1 db) as [|cas cs]; [done|].
  change (percentDone_expr (with_requestedCancellation true sj) ?n)
    with (percentDone_expr sj n).
  destruct (percentDone_expr sj (length (cas :: cs))) as [v|e]; [|done].
  destruct (check_percentDone v) as [pd|e]; [|done].
  cbn [fst snd]. f_equal.
  unfold cancellation_requested, set_jobs. cbn. f_equal.
  by rewrite insert_alter_eq, alter_insert_eq.
Qed.

Lemma doSelectJobWork_loop_cancellation_requested jobId ac startTime clock :
  ∀ processedCount db,
    doSelectJobWork_loop jobId ac startTime clock processedCount
      (cancellation_requested jobId db)
    = (λ x, (cancellation_requested jobId x.1, x.2))
        <$> doSelectJobWork_loop jobId ac startTime clock processedCount db.
Proof.
  induction clock as [|now clock IH]; intros pc db; [done|].
  cbn. destruct (differenceInSeconds startTime now <? 10); [|done].
  change (JobsService.selectJobBatch isSelectable selectOrder) with selectJobBatch.
  rewrite selectJobBatch_cancellation_requested.
  destruct (transaction (selectJobBatch jobId ac) db) as [db1 [c|e]]; [|done].
  cbn [fst snd]. destruct (c =? 0)%nat; [done|]. apply IH.
Qed.

(** X6.  [doSelectJobWork] does not look at [requestedCancellation]: on a
    database in which the cancellation of the job was requested it does the
    same batches, returns the same count or throws the same exception, and
    leaves the same database, the request still recorded. *)
Theorem doSelectJobWork_ignores_requestedCancellation jobId roughlyMaxSeconds
    clock db :
  doSelectJobWork jobId roughlyMaxSeconds clock
    (cancellation_requested jobId db)
  = (λ x, (cancellation_requested jobId x.1, x.2))
      <$> doSelectJobWork jobId roughlyMaxSeconds clock db.
Proof.
  unfold JobsService.doSelectJobWork.
  assert (jobs (cancellation_requested jobId db) !! jobId
          = with_requestedCancellation true <$> jobs db !! jobId) as ->.
  { unfold cancellation_requested. cbn. apply lookup_alter_eq. }
  destruct (jobs db !! jobId) as [sj|] eqn:Hj; cbn [fmap option_fmap option_map].
  2:{ done. }
  destruct clock as [|startTime clock]; [done|].
  apply doSelectJobWork_loop_cancellation_requested.
Qed.

End Properties.


(** ** Starting and ending a job *)

Section Lifecycle.

Context {AuthenticatedUser ReleaseDetailType : Type}.
Variable doRoleInReleaseCheck : Db → AuthenticatedUser → uuid → result string.
Variable getReleaseInfo : Db → uuid → result ReleaseInfo.
Variable getBase : Db → uuid → string → result ReleaseDetailType.
Variable uuid_generate : Db → uuid.

Local Abbreviation startSelectJob :=
  (JobsService.startSelectJob doRoleInReleaseCheck getReleaseInfo getBase
     uuid_generate).

Lemma elem_of_runningJobsOf releaseId db jid :
  jid ∈ JobsService.runningJobsOf releaseId db
  ↔ ∃ j, jobs db !! jid = Some j ∧ job.status j = job.running
         ∧ job.forRelease j = releaseId.
Proof.
  unfold JobsService.runningJobsOf. rewrite list_elem_of_fmap. split.
  - intros ([k j] & -> & Hin). apply elem_of_map_to_list in Hin.
    apply map_lookup_filter_Some in Hin as [Hj Hp]. by exists j.
  - intros (j & Hj & Hp). exists (jid, j). split; [done|].
    apply elem_of_map_to_list. by apply map_lookup_filter_Some.
Qed.

Lemma NoDup_runningJobsOf releaseId db :
  NoDup (JobsService.runningJobsOf releaseId db).
Proof. apply NoDup_fst_map_to_list. Qed.

Lemma startGenericJob_conflict releaseId finalJobStartStep db :
  JobsService.runningJobsOf releaseId db ≠ [] →
  JobsService.startGenericJob releaseId finalJobStartStep db
  = (db, Throw
           (Base7807Error "Only one running job is allowed per release" 400
              ("Job with id(s) "
               ++ String.concat " " (JobsService.runningJobsOf releaseId db)
               ++ " have been found in the running state"))).
Proof.
  intros Hne. unfold JobsService.startGenericJob, transaction, tx_bind, tx_query.
  destruct (JobsService.runningJobsOf releaseId db); done.
Qed.

Lemma startGenericJob_free releaseId finalJobStartStep db :
  JobsService.runningJobsOf releaseId db = [] →
  JobsService.startGenericJob releaseId finalJobStartStep db
  = transaction finalJobStartStep db.
Proof.
  intros Hnil. unfold JobsService.startGenericJob, transaction, tx_bind, tx_query.
  by rewrite Hnil.
Qed.

(** C5.  For a release with a running job, [startGenericJob], and with it
    [startSelectJob] called by a data owner, throws the error "Only one
    running job is allowed per release" whose detail lists the ids of the
    running jobs of the release, the given one among them, and the database,
    so also that job, is left as it was. *)
Theorem startSelectJob_conflict user releaseId db info jobId sj :
  doRoleInReleaseCheck db user releaseId = Ok "DataOwner" →
  getReleaseInfo db releaseId = Ok info →
  jobs db !! jobId = Some sj →
  job.status sj = job.running →
  job.forRelease sj = releaseId →
  let ids := JobsService.runningJobsOf releaseId db in
  let conflict :=
    Base7807Error "Only one running job is allowed per release" 400
      ("Job with id(s) " ++ String.concat " " ids
       ++ " have been found in the running state") in
  jobId ∈ ids
  ∧ (∀ jid, jid ∈ ids
            ↔ ∃ j, jobs db !! jid = Some j ∧ job.status j = job.running
                   ∧ job.forRelease j = releaseId)
  ∧ startSelectJob user releaseId db = (db, Throw conflict)
  ∧ (∀ finalJobStartStep,
       JobsService.startGenericJob releaseId finalJobStartStep db
       = (db, Throw conflict)).
Proof.
  intros Hrole Hinfo Hj Hst Hrel ids conflict.
  assert (jobId ∈ ids) as Hin.
  { apply elem_of_runningJobsOf. by exists sj. }
  assert (ids ≠ []) as Hne.
  { intros Hnil. rewrite Hnil in Hin. by apply elem_of_nil in Hin. }
  split; [done|]. split; [intros jid; apply elem_of_runningJobsOf|].
  split.
  - unfold JobsService.startSelectJob, tx_bind. rewrite Hrole.
    rewrite bool_decide_eq_false_2 by (intros Hx; by apply Hx).
    rewrite Hinfo. by rewrite startGenericJob_conflict.
  - intros step. by apply startGenericJob_conflict.
Qed.

(** C6.  For a release without a running job, [startSelectJob] called by a
    data owner inserts one job under a new id and changes nothing else: the
    job is running, started at the current database time, with percentDone
    0, messages ["Created"], initialTodoCount the number of cases of the
    datasets of the release, todoQueue those cases and selectedSpecimens
    empty. *)
Theorem startSelectJob_creates_job user releaseId db info r :
  doRoleInReleaseCheck db user releaseId = Ok "DataOwner" →
  getReleaseInfo db releaseId = Ok info →
  releaseQuery info db = Some r →
  (∀ jid j, jobs db !! jid = Some j → job.forRelease j = releaseId →
            job.status j ≠ job.running) →
  jobs db !! uuid_generate db = None →
  let cases := releaseAllDatasetCasesQuery info db in
  let sj :=
    {| job.forRelease := r;
       job.status := job.running;
       job.created := datetime_current db;
       job.started := datetime_current db;
       job.requestedCancellation := false;
       job.percentDone := 0;
       job.messages := ["Created"];
       job.ended := None;
       job.initialTodoCount := Z.of_nat (size cases);
       job.todoQueue := cases;
       job.selectedSpecimens := ∅ |} in
  let db' := set_jobs <[uuid_generate db := sj]> db in
  startSelectJob user releaseId db = (db', getBase db' releaseId "DataOwner")
  ∧ jobs db' !! uuid_generate db = Some sj
  ∧ (∀ jid, jid ≠ uuid_generate db → jobs db' !! jid = jobs db !! jid)
  ∧ size (jobs db') = S (size (jobs db))
  ∧ releases db' = releases db
  ∧ datasetCases db' = datasetCases db.
Proof.
  intros Hrole Hinfo Hrq Hfree Hfresh cases sj db'.
  assert (JobsService.runningJobsOf releaseId db = []) as Hnil.
  { destruct (JobsService.runningJobsOf releaseId db) as [|jid ids] eqn:Hids;
      [done|exfalso].
    assert (jid ∈ JobsService.runningJobsOf releaseId db) as Hin
      by (rewrite Hids; left).
    apply elem_of_runningJobsOf in Hin as (j & Hj & Hst & Hrel).
    by eapply Hfree. }
  split.
  - unfold JobsService.startSelectJob, tx_bind. rewrite Hrole.
    rewrite bool_decide_eq_false_2 by (intros Hx; by apply Hx).
    rewrite Hinfo, startGenericJob_free by done.
    unfold transaction, JobsService.insert_SelectJob. by rewrite Hrq.
  - split; [apply lookup_insert_eq|].
    split; [intros jid Hne; by apply lookup_insert_ne|].
    split; [by apply map_size_insert_None|done].
Qed.

(** C8.  [endSelectJob] with [isCancellation] set marks the job cancelled
    with percentDone 100 and [ended] the current database time, and changes
    nothing else: the releases, [selectedSpecimens] of the release of the job
    among them, are as before, and so are the job's own [selectedSpecimens]
    and its other fields. *)
Theorem endSelectJob_cancellation jobId wasSuccessful db sj :
  jobs db !! jobId = Some sj →
  ∃ sj' db',
    JobsService.endSelectJob jobId wasSuccessful true db = (db', Ok tt)
    ∧ db' = set_jobs <[jobId := sj']> db
    ∧ releases db' = releases db
    ∧ jobs db' !! jobId = Some sj'
    ∧ job.status sj' = job.cancelled
    ∧ job.percentDone sj' = 100
    ∧ job.ended sj' = Some (datetime_current db)
    ∧ job.selectedSpecimens sj' = job.selectedSpecimens sj
    ∧ job.todoQueue sj' = job.todoQueue sj
    ∧ job.initialTodoCount sj' = job.initialTodoCount sj
    ∧ job.messages sj' = job.messages sj
    ∧ job.forRelease sj' = job.forRelease sj.
Proof.
  intros Hj.
  exists (with_percentDone_ended_status 100 (datetime_current db) job.cancelled sj).
  eexists. split.
  - unfold JobsService.endSelectJob, transaction, tx_bind, tx_ret, update_SelectJob.
    cbn. rewrite Hj. reflexivity.
  - repeat split; try done. cbn. apply lookup_insert_eq.
Qed.

(** C2, as the code has it.  [endSelectJob] of a successful job that is not
    cancelled assigns the job's [selectedSpecimens] to the release: the
    selection of the release becomes exactly the job's, and a specimen the
    release had selected stays selected only when the job selected it. *)
Theorem endSelectJob_success_replaces jobId db sj rq :
  jobs db !! jobId = Some sj →
  releases db !! job.forRelease sj = Some rq →
  ∃ db' rq' sj',
    JobsService.endSelectJob jobId true false db = (db', Ok tt)
    ∧ releases db' !! job.forRelease sj = Some rq'
    ∧ release.selectedSpecimens rq' = job.selectedSpecimens sj
    ∧ (∀ s, s ∈ release.selectedSpecimens rq →
            s ∈ release.selectedSpecimens rq' ↔ s ∈ job.selectedSpecimens sj)
    ∧ jobs db' !! jobId = Some sj'
    ∧ job.status sj' = job.succeeded
    ∧ job.percentDone sj' = 100
    ∧ job.selectedSpecimens sj' = job.selectedSpecimens sj.
Proof.
  intros Hj Hr.
  eexists _, _, _. split.
  - unfold JobsService.endSelectJob, transaction, tx_bind, tx_ret,
      update_SelectJob, update_Release.
    cbn. rewrite Hj, Hr. cbn. rewrite Hj. reflexivity.
  - cbn. rewrite !lookup_insert_eq. repeat split; try done.
Qed.

(** ** More on starting, cancelling and ending *)

Local Abbreviation cancelInProgressSelectJob :=
  (JobsService.cancelInProgressSelectJob doRoleInReleaseCheck getReleaseInfo
     getBase).

(** X7.  A caller whose role in the release is not "DataOwner" can neither
    start nor cancel a job: both methods throw
    [NotAuthorisedToControlJob] with the role and the release, before they
    look for running jobs, and the database is unchanged. *)
Theorem job_control_not_authorised user releaseId db userRole :
  doRoleInReleaseCheck db user releaseId = Ok userRole →
  userRole ≠ "DataOwner" →
  startSelectJob user releaseId db
  = (db, Throw (NotAuthorisedToControlJob userRole releaseId))
  ∧ cancelInProgressSelectJob user releaseId db
    = (db, Throw (NotAuthorisedToControlJob userRole releaseId)).
Proof.
  intros Hrole Hne.
  unfold JobsService.startSelectJob, JobsService.cancelInProgressSelectJob,
    tx_bind.
  rewrite Hrole, bool_decide_eq_true_2 by done. done.
Qed.

Lemma elem_of_runningJobsOf_insert releaseId db k sj jid :
  jid ∈ JobsService.runningJobsOf releaseId (set_jobs <[k := sj]> db)
  ↔ (jid = k ∧ job.status sj = job.running ∧ job.forRelease sj = releaseId)
    ∨ (jid ≠ k ∧ jid ∈ JobsService.runningJobsOf releaseId db).
Proof.
  rewrite !elem_of_runningJobsOf. cbn. split.
  - intros (j & Hj & Hst & Hrel). destruct (decide (jid = k)) as [->|Hne].
    + rewrite lookup_insert_eq in Hj. injection Hj as ->. by left.
    + rewrite lookup_insert_ne in Hj by done. right. split; [done|].
      by exists j.
  - intros [(-> & Hst & Hrel)|(Hne & j & Hj & Hst & Hrel)].
    + exists sj. by rewrite lookup_insert_eq.
    + exists j. by rewrite lookup_insert_ne.
Qed.

(* What [startSelectJob] can do to the database. *)
Lemma startSelectJob_cases user releaseId db db' r :
  startSelectJob user releaseId db = (db', r) →
  db' = db
  ∨ ∃ info rel,
      getReleaseInfo db releaseId = Ok info
      ∧ releaseQuery info db = Some rel
      ∧ JobsService.runningJobsOf releaseId db = []
      ∧ db' = set_jobs
                <[uuid_generate db :=
                    {| job.forRelease := rel;
                       job.status := job.running;
                       job.created := datetime_current db;
                       job.started := datetime_current db;
                       job.requestedCancellation := false;
                       job.percentDone := 0;
                       job.messages := ["Created"];
                       job.ended := None;
                       job.initialTodoCount :=
                         Z.of_nat (size (releaseAllDatasetCasesQuery info db));
                       job.todoQueue := releaseAllDatasetCasesQuery info db;
                       job.selectedSpecimens := ∅ |}]> db.
Proof.
  unfold JobsService.startSelectJob, tx_bind, tx_throw.
  destruct (doRoleInReleaseCheck db user releaseId) as [userRole|e];
    [|intros [= <- _]; by left].
  destruct (bool_decide (userRole ≠ "DataOwner")); [intros [= <- _]; by left|].
  destruct (getReleaseInfo db releaseId) as [info|e] eqn:Hinfo;
    [|intros [= <- _]; by left].
  destruct (JobsService.runningJobsOf releaseId db) as [|jid ids] eqn:Hids.
  - rewrite startGenericJob_free by done.
    unfold transaction, JobsService.insert_SelectJob.
    destruct (releaseQuery info db) as [rel|] eqn:Hrel;
      [|intros [= <- _]; by left].
    intros [= <- _]. right. by exists info, rel.
  - rewrite startGenericJob_conflict by (rewrite Hids; done).
    intros [= <- _]. by left.
Qed.

(** X8.  [startSelectJob] keeps the rule that a release has at most one
    running job, whatever its outcome, when the release query of
    [getReleaseInfo] selects the release the method was called for. *)
Theorem startSelectJob_one_running_job user releaseId db db' r :
  one_running_job_per_release db →
  (∀ info rel, getReleaseInfo db releaseId = Ok info →
               releaseQuery info db = Some rel → rel = releaseId) →
  startSelectJob user releaseId db = (db', r) →
  one_running_job_per_release db'.
Proof.
  intros Hone Hrel Hstart.
  apply startSelectJob_cases in Hstart
    as [->|(info & rel & Hinfo & Hq & Hnil & ->)]; [done|].
  assert (rel = releaseId) as -> by eauto.
  intros rid j1 j2 H1 H2.
  apply elem_of_runningJobsOf_insert in H1, H2. cbn in H1, H2.
  destruct H1 as [(-> & _ & <-)|(Hne1 & H1)], H2 as [(-> & _ & Hr2)|(Hne2 & H2)].
  - done.
  - rewrite Hnil in H2. by apply elem_of_nil in H2.
  - subst rid. rewrite Hnil in H1. by apply elem_of_nil in H1.
  - by eapply Hone.
Qed.

Lemma runningJobsOf_single releaseId db jobId sj :
  one_running_job_per_release db →
  jobs db !! jobId = Some sj →
  job.status sj = job.running →
  job.forRelease sj = releaseId →
  JobsService.runningJobsOf releaseId db = [jobId].
Proof.
  intros Hone Hj Hst Hrel.
  assert (jobId ∈ JobsService.runningJobsOf releaseId db) as Hin.
  { apply elem_of_runningJobsOf. by exists sj. }
  pose proof (NoDup_runningJobsOf releaseId db) as Hnd.
  destruct (JobsService.runningJobsOf releaseId db) as [|j1 [|j2 ids]] eqn:Hids.
  - by apply elem_of_nil in Hin.
  - apply list_elem_of_singleton in Hin as ->. done.
  - exfalso. assert (j1 = j2) as ->.
    { apply (Hone releaseId); rewrite Hids; [left|right; left]. }
    apply NoDup_cons in Hnd as [Hnot _]. apply Hnot. left.
Qed.

(** X9.  For a release without a running job, [cancelInProgressSelectJob]
    called by a data owner throws the error "No job yet" and leaves the
    database unchanged. *)
Theorem cancelInProgressSelectJob_no_job user releaseId db info :
  doRoleInReleaseCheck db user releaseId = Ok "DataOwner" →
  getReleaseInfo db releaseId = Ok info →
  (∀ jid j, jobs db !! jid = Some j → job.forRelease j = releaseId →
            job.status j ≠ job.running) →
  cancelInProgressSelectJob user releaseId db = (db, Throw (Error "No job yet")).
Proof.
  intros Hrole Hinfo Hfree.
  assert (JobsService.runningJobsOf releaseId db = []) as Hnil.
  { destruct (JobsService.runningJobsOf releaseId db) as [|jid ids] eqn:Hids;
      [done|exfalso].
    assert (jid ∈ JobsService.runningJobsOf releaseId db) as Hin
      by (rewrite Hids; left).
    apply elem_of_runningJobsOf in Hin as (j & Hj & Hst & Hrel).
    by eapply Hfree. }
  unfold JobsService.cancelInProgressSelectJob, tx_bind. rewrite Hrole.
  rewrite bool_decide_eq_false_2 by (intros Hx; by apply Hx).
  rewrite Hinfo. unfold transaction. by rewrite Hnil.
Qed.

(** X10.  For the running job of a release, [cancelInProgressSelectJob]
    called by a data owner sets [requestedCancellation] of that job and
    changes nothing else: the job is still running with its queue, its
    selection and its percentDone, and when the cancellation was requested
    before, the database is the same as before. *)
Theorem cancelInProgressSelectJob_sets_flag user releaseId db info jobId sj :
  doRoleInReleaseCheck db user releaseId = Ok "DataOwner" →
  getReleaseInfo db releaseId = Ok info →
  one_running_job_per_release db →
  jobs db !! jobId = Some sj →
  job.status sj = job.running →
  job.forRelease sj = releaseId →
  let db' := set_jobs <[jobId := with_requestedCancellation true sj]> db in
  cancelInProgressSelectJob user releaseId db
  = (db', getBase db' releaseId "DataOwner")
  ∧ db' = cancellation_requested jobId db
  ∧ (job.requestedCancellation sj = true → db' = db)
  ∧ JobsService.runningJobsOf releaseId db' = [jobId].
Proof.
  intros Hrole Hinfo Hone Hj Hst Hrel db'.
  pose proof (runningJobsOf_single _ _ _ _ Hone Hj Hst Hrel) as Hids.
  assert (db' = cancellation_requested jobId db) as Hcr.
  { unfold db', cancellation_requested, set_jobs. f_equal.
    apply map_eq. intros jid. rewrite lookup_alter, lookup_insert.
    case_decide; [subst; by rewrite Hj|done]. }
  split; [|split; [done|split]].
  - unfold JobsService.cancelInProgressSelectJob, tx_bind. rewrite Hrole.
    rewrite bool_decide_eq_false_2 by (intros Hx; by apply Hx).
    rewrite Hinfo. unfold transaction, update_SelectJob. rewrite Hids. cbn.
    by rewrite Hj.
  - intros Hflag. unfold db', set_jobs. destruct db as [js rs ds t].
    cbn in *. f_equal. apply insert_id. rewrite Hj. f_equal.
    destruct sj. cbn in *. by subst.
  - apply (runningJobsOf_single _ _ _ (with_requestedCancellation true sj));
      try done.
    + intros rid j1 j2 H1 H2.
      apply elem_of_runningJobsOf_insert in H1, H2. cbn in H1, H2.
      assert (∀ j, (j = jobId ∧ job.status sj = job.running
                    ∧ job.forRelease sj = rid)
                   ∨ (j ≠ jobId ∧ j ∈ JobsService.runningJobsOf rid db) →
                   j ∈ JobsService.runningJobsOf rid db) as Hold.
      { intros j [(-> & ? & ?)|[_ ?]]; [|done].
        apply elem_of_runningJobsOf. by exists sj. }
      eapply Hone; by apply Hold.
    + cbn. apply lookup_insert_eq.
Qed.

(** ** The lists of jobs *)

Lemma elem_of_getInProgressSelectJobs db row :
  row ∈ JobsService.getInProgressSelectJobs db
  ↔ ∃ sj, jobs db !! InProgressSelectJob.jobId row = Some sj
          ∧ job.status sj = job.running
          ∧ InProgressSelectJob.releaseId row = job.forRelease sj
          ∧ InProgressSelectJob.requestedCancellation row
            = job.requestedCancellation sj.
Proof.
  unfold JobsService.getInProgressSelectJobs. rewrite list_elem_of_fmap. split.
  - intros ([k j] & -> & Hin). apply elem_of_map_to_list in Hin.
    apply map_lookup_filter_Some in Hin as [Hj Hp]. by exists j.
  - intros (j & Hj & Hst & Hrel & Hrc).
    exists (InProgressSelectJob.jobId row, j). split.
    + destruct row. cbn in *. by subst.
    + apply elem_of_map_to_list. by apply map_lookup_filter_Some.
Qed.

Lemma elem_of_getPreviousJobs releaseId db jid :
  jid ∈ JobsService.getPreviousJobs releaseId db
  ↔ ∃ j, jobs db !! jid = Some j ∧ job.status j ≠ job.running
         ∧ job.forRelease j = releaseId.
Proof.
  unfold JobsService.getPreviousJobs. rewrite list_elem_of_fmap. split.
  - intros ([k j] & -> & Hin). apply elem_of_map_to_list in Hin.
    apply map_lookup_filter_Some in Hin as [Hj Hp]. by exists j.
  - intros (j & Hj & Hp). exists (jid, j). split; [done|].
    apply elem_of_map_to_list. by apply map_lookup_filter_Some.
Qed.

(* What [endSelectJob] does to a job that is there. *)
Lemma endSelectJob_run jobId wasSuccessful isCancellation db sj :
  jobs db !! jobId = Some sj →
  JobsService.endSelectJob jobId wasSuccessful isCancellation db
  = (set_jobs
       <[jobId :=
           with_percentDone_ended_status 100 (datetime_current db)
             (if isCancellation then job.cancelled
              else if wasSuccessful then job.succeeded else job.failed) sj]>
       (if negb isCancellation && wasSuccessful then
          match releases db !! job.forRelease sj with
          | Some rq =>
              set_releases
                <[job.forRelease sj :=
                    {| release.applicationCoded := release.applicationCoded rq;
                       release.selectedSpecimens := job.selectedSpecimens sj |}]>
                db
          | None => db
          end
        else db),
     Ok tt).
Proof.
  intros Hj.
  unfold JobsService.endSelectJob, transaction, tx_bind, tx_ret,
    update_SelectJob, update_Release.
  destruct isCancellation, wasSuccessful; cbn; rewrite ?Hj; try done.
  destruct (releases db !! job.forRelease sj); cbn; by rewrite Hj.
Qed.

Lemma endSelectJob_jobs jobId wasSuccessful isCancellation db sj :
  jobs db !! jobId = Some sj →
  jobs (JobsService.endSelectJob jobId wasSuccessful isCancellation db).1
  = <[jobId :=
        with_percentDone_ended_status 100 (datetime_current db)
          (if isCancellation then job.cancelled
           else if wasSuccessful then job.succeeded else job.failed) sj]>
      (jobs db).
Proof.
  intros Hj. rewrite (endSelectJob_run _ _ _ _ _ Hj). cbn.
  destruct (negb isCancellation && wasSuccessful); [|done].
  by destruct (releases db !! job.forRelease sj).
Qed.

(** X11.  [endSelectJob] on a job in the database never throws, whatever the
    flags, and touches only that job and the release it is for: the other
    jobs, the other releases, the coded application of its release and the
    dataset cases stay as they are; of the job it sets [status] (never to
    running), [percentDone] to 100 and [ended]; and unless the job is ended
    as successful and not cancelled, no release changes at all. *)
Theorem endSelectJob_frame jobId wasSuccessful isCancellation db sj :
  jobs db !! jobId = Some sj →
  ∃ db',
    JobsService.endSelectJob jobId wasSuccessful isCancellation db = (db', Ok tt)
    ∧ jobs db' !! jobId
      = Some (with_percentDone_ended_status 100 (datetime_current db)
                (if isCancellation then job.cancelled
                 else if wasSuccessful then job.succeeded else job.failed) sj)
    ∧ (∀ jid, jid ≠ jobId → jobs db' !! jid = jobs db !! jid)
    ∧ (∀ rid, rid ≠ job.forRelease sj → releases db' !! rid = releases db !! rid)
    ∧ release.applicationCoded <$> releases db' !! job.forRelease sj
      = release.applicationCoded <$> releases db !! job.forRelease sj
    ∧ datasetCases db' = datasetCases db
    ∧ (isCancellation = true ∨ wasSuccessful = false →
       releases db' = releases db).
Proof.
  intros Hj. eexists. split; [by apply endSelectJob_run|].
  cbn. split; [apply lookup_insert_eq|].
  split; [intros jid Hne; rewrite lookup_insert_ne by done|].
  - destruct (negb isCancellation && wasSuccessful); [|done].
    by destruct (releases db !! job.forRelease sj).
  - split; [|split; [|split]].
    + intros rid Hne. destruct (negb isCancellation && wasSuccessful); [|done].
      destruct (releases db !! job.forRelease sj) eqn:Hr; [|done].
      cbn. by rewrite lookup_insert_ne.
    + destruct (negb isCancellation && wasSuccessful); [|done].
      destruct (releases db !! job.forRelease sj) eqn:Hr; cbn.
      * by rewrite lookup_insert_eq.
      * by rewrite Hr.
    + destruct (negb isCancellation && wasSuccessful); [|done].
      by destruct (releases db !! job.forRelease sj).
    + intros [-> | ->]; [done|]. by destruct isCancellation.
Qed.

(** X12.  [endSelectJob] with an id that is no job in the database returns
    normally and changes nothing: its guard for a job that is not a select
    job never fires. *)
Theorem endSelectJob_unknown_job jobId wasSuccessful isCancellation db :
  jobs db !! jobId = None →
  JobsService.endSelectJob jobId wasSuccessful isCancellation db = (db, Ok tt).
Proof.
  intros Hj.
  unfold JobsService.endSelectJob, transaction, tx_bind, tx_ret, update_SelectJob.
  destruct isCancellation, wasSuccessful; cbn; by rewrite ?Hj.
Qed.

Lemma endSelectJob_moves_job_to_previous_aux jobId wasSuccessful
    isCancellation db sj :
  jobs db !! jobId = Some sj →
  ∀ rid jid,
    jid ∈ JobsService.runningJobsOf rid
            (JobsService.endSelectJob jobId wasSuccessful isCancellation db).1
    ↔ jid ∈ JobsService.runningJobsOf rid db ∧ jid ≠ jobId.
Proof.
  intros Hj rid jid. rewrite !elem_of_runningJobsOf.
  rewrite (endSelectJob_jobs _ _ _ _ _ Hj).
  assert ((if isCancellation then job.cancelled
           else if wasSuccessful then job.succeeded else job.failed)
          ≠ job.running) as Hst.
  { by destruct isCancellation, wasSuccessful. }
  split.
  - intros (j & Hjr & Hs & Hrel).
    destruct (decide (jid = jobId)) as [->|Hne].
    + rewrite lookup_insert_eq in Hjr. injection Hjr as <-. done.
    + rewrite lookup_insert_ne in Hjr by done. split; [|done]. by exists j.
  - intros [(j & Hjr & Hs & Hrel) Hne]. exists j.
    by rewrite lookup_insert_ne.
Qed.

(** X13.  After [endSelectJob], whatever the flags, the job is no longer
    among the jobs in progress nor among the running jobs of any release; it
    is among the previous jobs of its release; for every other job the lists
    are as before. *)
Theorem endSelectJob_moves_job_to_previous jobId wasSuccessful isCancellation
    db sj :
  jobs db !! jobId = Some sj →
  let db' := (JobsService.endSelectJob jobId wasSuccessful isCancellation db).1 in
  (∀ row, row ∈ JobsService.getInProgressSelectJobs db'
          ↔ row ∈ JobsService.getInProgressSelectJobs db
            ∧ InProgressSelectJob.jobId row ≠ jobId)
  ∧ (∀ rid jid, jid ∈ JobsService.runningJobsOf rid db'
                ↔ jid ∈ JobsService.runningJobsOf rid db ∧ jid ≠ jobId)
  ∧ jobId ∈ JobsService.getPreviousJobs (job.forRelease sj) db'
  ∧ (∀ rid jid, jid ≠ jobId →
                jid ∈ JobsService.getPreviousJobs rid db'
                ↔ jid ∈ JobsService.getPreviousJobs rid db).
Proof.
  intros Hj db'.
  pose proof (endSelectJob_jobs jobId wasSuccessful isCancellation db sj Hj)
    as Hjobs.
  fold db' in Hjobs.
  assert ((if isCancellation then job.cancelled
           else if wasSuccessful then job.succeeded else job.failed)
          ≠ job.running) as Hst.
  { by destruct isCancellation, wasSuccessful. }
  split; [|split; [|split]].
  - intros row. rewrite !elem_of_getInProgressSelectJobs, Hjobs. split.
    + intros (j & Hjr & Hs & Hrel & Hrc).
      destruct (decide (InProgressSelectJob.jobId row = jobId)) as [Heq|Hne].
      * rewrite Heq, lookup_insert_eq in Hjr. injection Hjr as <-. done.
      * rewrite lookup_insert_ne in Hjr by done. split; [|done]. by exists j.
    + intros [(j & Hjr & Hs & Hrel & Hrc) Hne]. exists j.
      by rewrite lookup_insert_ne.
  - by apply (endSelectJob_moves_job_to_previous_aux _ _ _ _ sj).
  - apply elem_of_getPreviousJobs. eexists.
    rewrite Hjobs, lookup_insert_eq. done.
  - intros rid jid Hne. rewrite !elem_of_getPreviousJobs, Hjobs.
    by rewrite lookup_insert_ne.
Qed.

(** X14.  Once the running job of a release is ended, the release is free
    again: [startGenericJob] for it no longer refuses and runs its final
    step. *)
Theorem startGenericJob_after_endSelectJob jobId wasSuccessful isCancellation
    db sj finalJobStartStep :
  one_running_job_per_release db →
  jobs db !! jobId = Some sj →
  job.status sj = job.running →
  let db' := (JobsService.endSelectJob jobId wasSuccessful isCancellation db).1 in
  JobsService.runningJobsOf (job.forRelease sj) db' = []
  ∧ JobsService.startGenericJob (job.forRelease sj) finalJobStartStep db'
    = transaction finalJobStartStep db'.
Proof.
  intros Hone Hj Hst db'.
  assert (JobsService.runningJobsOf (job.forRelease sj) db' = []) as Hnil.
  { destruct (JobsService.runningJobsOf (job.forRelease sj) db')
      as [|jid ids] eqn:Hids; [done|exfalso].
    assert (jid ∈ JobsService.runningJobsOf (job.forRelease sj) db') as Hin
      by (rewrite Hids; left).
    apply (endSelectJob_moves_job_to_previous_aux jobId wasSuccessful
             isCancellation db sj Hj) in Hin as [Hin Hne].
    apply Hne. eapply Hone; [exact Hin|].
    apply elem_of_runningJobsOf. by exists sj. }
  split; [done|]. by apply startGenericJob_free.
Qed.

End Lifecycle.

(** ** A job from start to end *)

Section Pipeline.

Context {AuthenticatedUser ReleaseDetailType : Type}.
Variable doRoleInReleaseCheck : Db → AuthenticatedUser → uuid → result string.
Variable getReleaseInfo : Db → uuid → result ReleaseInfo.
Variable getBase : Db → uuid → string → result ReleaseDetailType.
Variable isSelectable :
  option release.ApplicationCoded → dataset.DatasetCase →
  dataset.DatasetPatient → dataset.DatasetSpecimen → result bool.
Variable uuid_generate : Db → uuid.
Variable selectOrder : gset uuid → list uuid.
Hypothesis selectOrder_perm : ∀ Q : gset uuid, selectOrder Q ≡ₚ elements Q.

Local Abbreviation startSelectJob :=
  (JobsService.startSelectJob doRoleInReleaseCheck getReleaseInfo getBase
     uuid_generate).
Local Abbreviation doSelectJobWork :=
  (JobsService.doSelectJobWork isSelectable selectOrder).

(** X15.  [doSelectJobWork] starts and ends no job: after a call that
    returns or throws, the running jobs of every release and the jobs in
    progress, with their releases and cancellation requests, are the ones
    from before. *)
Theorem doSelectJobWork_keeps_job_lists jobId roughlyMaxSeconds clock db out r :
  doSelectJobWork jobId roughlyMaxSeconds clock db = Some (out, r) →
  (∀ rid jid, jid ∈ JobsService.runningJobsOf rid out
              ↔ jid ∈ JobsService.runningJobsOf rid db)
  ∧ (∀ row, row ∈ JobsService.getInProgressSelectJobs out
            ↔ row ∈ JobsService.getInProgressSelectJobs db)
  ∧ (∀ rid jid, jid ∈ JobsService.getPreviousJobs rid out
                ↔ jid ∈ JobsService.getPreviousJobs rid db).
Proof.
  intros Hrun.
  assert (∀ jid, match jobs out !! jid, jobs db !! jid with
                 | Some sj', Some sj =>
                     job.status sj' = job.status sj
                     ∧ job.forRelease sj' = job.forRelease sj
                     ∧ job.requestedCancellation sj'
                       = job.requestedCancellation sj
                 | None, None => True
                 | _, _ => False
                 end) as Hsame.
  { intros jid. unfold JobsService.doSelectJobWork in Hrun.
    destruct (jobs db !! jobId) as [sj|] eqn:Hj.
    2:{ injection Hrun as <- <-. by destruct (jobs db !! jid). }
    destruct clock as [|startTime clock]; [discriminate|].
    pose proof (doSelectJobWork_loop_frame _ _ _ _ _ _ _ _ _ _ Hrun)
      as (_ & _ & _ & Ho & Hf).
    destruct (decide (jid = jobId)) as [->|Hne].
    - destruct (Hf sj Hj) as (sj' & -> & ? & ? & ? & _). by rewrite Hj.
    - rewrite (Ho jid Hne). by destruct (jobs db !! jid). }
  split; [|split].
  - intros rid jid. rewrite !elem_of_runningJobsOf. specialize (Hsame jid).
    destruct (jobs out !! jid) as [sj'|], (jobs db !! jid) as [sj|];
      try done; destruct Hsame as (Hs & Hr & _).
    split; intros (j & [= <-] & ? & ?); eexists; (split; [done|]);
      split; congruence.
  - intros row. rewrite !elem_of_getInProgressSelectJobs.
    specialize (Hsame (InProgressSelectJob.jobId row)).
    destruct (jobs out !! InProgressSelectJob.jobId row) as [sj'|],
             (jobs db !! InProgressSelectJob.jobId row) as [sj|];
      try done; destruct Hsame as (Hs & Hr & Hc).
    split; intros (j & [= <-] & ? & ? & ?); eexists; (split; [done|]);
      repeat split; congruence.
  - intros rid jid. rewrite !elem_of_getPreviousJobs. specialize (Hsame jid).
    destruct (jobs out !! jid) as [sj'|], (jobs db !! jid) as [sj|];
      try done; destruct Hsame as (Hs & Hr & _).
    split; intros (j & [= <-] & ? & ?); eexists; (split; [done|]);
      split; congruence.
Qed.

(** X16.  A job from start to end.  A data owner starts a job for a release
    that has none running; every case of the datasets of the release is in
    the database and the evaluator does not throw on the coded application
    of the release.  Then one call of [doSelectJobWork], on a clock that does
    not run backwards and has more readings than the release has cases,
    returns the number of cases, and [endSelectJob] for a successful job
    leaves the job succeeded at 100 percent and the release with exactly the
    specimens selected that the evaluator approved in those cases. *)
Theorem select_job_start_to_end user releaseId db info rq roughlyMaxSeconds
    startTime clock :
  doRoleInReleaseCheck db user releaseId = Ok "DataOwner" →
  getReleaseInfo db releaseId = Ok info →
  releaseQuery info db = Some releaseId →
  releases db !! releaseId = Some rq →
  (∀ jid j, jobs db !! jid = Some j → job.forRelease j = releaseId →
            job.status j ≠ job.running) →
  let cases := releaseAllDatasetCasesQuery info db in
  let ac := Some (release.applicationCoded rq) in
  (∀ id, id ∈ cases → is_Some (datasetCases db !! id)) →
  (∀ cas pat spec, ∃ b, isSelectable ac cas pat spec = Ok b) →
  Forall (λ now, startTime ≤ now) clock →
  (size cases < length clock)%nat →
  let jobId := uuid_generate db in
  let db1 := (startSelectJob user releaseId db).1 in
  ∃ db2 sj3 rq3,
    doSelectJobWork jobId roughlyMaxSeconds (startTime :: clock) db1
    = Some (db2, Ok (size cases))
    ∧ let db3 := (JobsService.endSelectJob jobId true false db2).1 in
      jobs db3 !! jobId = Some sj3
      ∧ job.status sj3 = job.succeeded
      ∧ job.percentDone sj3 = 100
      ∧ job.todoQueue sj3 = ∅
      ∧ releases db3 !! releaseId = Some rq3
      ∧ release.applicationCoded rq3 = release.applicationCoded rq
      ∧ ∀ s, s ∈ release.selectedSpecimens rq3
             ↔ ∃ id ps,
                 id ∈ cases
                 ∧ datasetCases db !! id = Some ps
                 ∧ approves isSelectable ac (dataset.Build_DatasetCase id ps) s.
Proof.
  intros Hrole Hinfo Hrq Hrel Hfree cases ac Href Hok Hclock Hlen jobId db1.
  set (sj1 :=
         {| job.forRelease := releaseId;
            job.status := job.running;
            job.created := datetime_current db;
            job.started := datetime_current db;
            job.requestedCancellation := false;
            job.percentDone := 0;
            job.messages := ["Created"];
            job.ended := None;
            job.initialTodoCount := Z.of_nat (size cases);
            job.todoQueue := cases;
            job.selectedSpecimens := ∅ |}).
  assert (db1 = set_jobs <[jobId := sj1]> db) as Hdb1.
  { unfold db1.
    assert (JobsService.runningJobsOf releaseId db = []) as Hnil.
    { destruct (JobsService.runningJobsOf releaseId db) as [|jid ids] eqn:Hids;
        [done|exfalso].
      assert (jid ∈ JobsService.runningJobsOf releaseId db) as Hin
        by (rewrite Hids; left).
      apply elem_of_runningJobsOf in Hin as (j & Hj & Hst & Hr).
      by eapply Hfree. }
    unfold JobsService.startSelectJob, tx_bind. rewrite Hrole.
    rewrite bool_decide_eq_false_2 by (intros Hx; by apply Hx).
    rewrite Hinfo, startGenericJob_free by done.
    unfold transaction, JobsService.insert_SelectJob. by rewrite Hrq. }
  assert (jobs db1 !! jobId = Some sj1) as Hj1.
  { rewrite Hdb1. cbn. apply lookup_insert_eq. }
  destruct (doSelectJobWork_loop_complete isSelectable selectOrder
              selectOrder_perm jobId ac startTime clock 0%nat db1 sj1 0%nat)
    as (db2 & sj2 & Hwork & Hj2 & Hq2 & Hs2 & _); try done.
  { unfold count_identity. cbn. lia. }
  { rewrite Hdb1. cbn. done. }
  assert (releases db2 = releases db ∧ datasetCases db1 = datasetCases db
          ∧ job.forRelease sj2 = releaseId) as (Hr2 & Hd1 & Hf2).
  { apply doSelectJobWork_loop_frame in Hwork as (Hr & _ & _ & _ & Hf).
    destruct (Hf sj1 Hj1) as (sj' & Hj' & _ & Hfr & _).
    rewrite Hr, Hdb1. split; [done|]. split; [done|].
    assert (sj' = sj2) as -> by congruence. by rewrite Hfr. }
  pose proof (endSelectJob_run jobId true false db2 sj2 Hj2) as Hend.
  rewrite Hf2, Hr2, Hrel in Hend. cbn in Hend.
  exists db2, (with_percentDone_ended_status 100 (datetime_current db2)
                 job.succeeded sj2),
    {| release.applicationCoded := release.applicationCoded rq;
       release.selectedSpecimens := job.selectedSpecimens sj2 |}.
  split.
  { unfold JobsService.doSelectJobWork. rewrite Hj1.
    replace (release.applicationCoded <$> releases db1 !! job.forRelease sj1)
      with ac; [exact Hwork|].
    rewrite Hdb1. cbn. by rewrite Hrel. }
  cbv zeta. rewrite Hend. cbn.
  rewrite !lookup_insert_eq.
  split; [done|]. split; [done|]. split; [done|]. split; [done|].
  split; [done|]. split; [done|].
  intros s. rewrite (Hs2 s). cbn. rewrite Hd1. split.
  - intros [Hnil|?]; [by apply not_elem_of_empty in Hnil|done].
  - by right.
Qed.

End Pipeline.

(** ** The checkbox tree of the releases service *)

Section CheckboxTree.

Import ReleasesService.

Variable collapseExternalIds : option (list (string * string)) → string.

Local Abbreviation createSpecimenMap :=
  (ReleasesService.createSpecimenMap collapseExternalIds).
Local Abbreviation createPatientMap :=
  (ReleasesService.createPatientMap collapseExternalIds).
Local Abbreviation createCaseMap :=
  (ReleasesService.createCaseMap collapseExternalIds).

Lemma forallb_status (st : ReleaseNodeStatusType) nodes :
  forallb (λ s, bool_decide (s = st)) nodes = true ↔ ∀ n, n ∈ nodes → n = st.
Proof.
  rewrite forallb_forall. split.
  - intros H n Hin. apply list_elem_of_In in Hin.
    by apply H, bool_decide_eq_true in Hin.
  - intros H n Hin. apply bool_decide_eq_true, H. by apply list_elem_of_In.
Qed.

Lemma calcNodeStatus_selected nodes :
  calcNodeStatus nodes = selected ↔ ∀ n, n ∈ nodes → n = selected.
Proof.
  unfold calcNodeStatus. rewrite <- forallb_status.
  destruct (forallb (λ s, bool_decide (s = selected)) nodes); [done|].
  destruct (forallb (λ s, bool_decide (s = unselected)) nodes); done.
Qed.

Lemma calcNodeStatus_unselected nodes :
  calcNodeStatus nodes = unselected
  ↔ nodes ≠ [] ∧ ∀ n, n ∈ nodes → n = unselected.
Proof.
  unfold calcNodeStatus. rewrite <- (forallb_status unselected).
  destruct (forallb (λ s, bool_decide (s = selected)) nodes) eqn:Hall.
  - split; [done|]. intros [Hne Hnone]. exfalso.
    destruct nodes as [|n nodes]; [done|].
    cbn in Hall, Hnone.
    apply andb_true_iff in Hall as [Hs _], Hnone as [Hu _].
    apply bool_decide_eq_true in Hs, Hu. congruence.
  - destruct (forallb (λ s, bool_decide (s = unselected)) nodes);
      [|split; [done|by intros [_ ?]]].
    split; [|done]. intros _. split; [|done]. intros ->. discriminate Hall.
Qed.

(** X17.  [calcNodeStatus] gives a node the state of its children: selected
    exactly when every child is selected, which includes a node without
    children; unselected exactly when there is a child and every child is
    unselected; indeterminate exactly when some child is not selected and
    some child is not unselected. *)
Theorem calcNodeStatus_spec nodes :
  (calcNodeStatus nodes = selected ↔ ∀ n, n ∈ nodes → n = selected)
  ∧ (calcNodeStatus nodes = unselected
     ↔ nodes ≠ [] ∧ ∀ n, n ∈ nodes → n = unselected)
  ∧ (calcNodeStatus nodes = indeterminate
     ↔ (∃ n, n ∈ nodes ∧ n ≠ selected) ∧ (∃ n, n ∈ nodes ∧ n ≠ unselected))
  ∧ calcNodeStatus [] = selected.
Proof.
  split; [apply calcNodeStatus_selected|].
  split; [apply calcNodeStatus_unselected|].
  split; [|done].
  assert (∀ st, forallb (λ s, bool_decide (s = st)) nodes = false
                ↔ ∃ n, n ∈ nodes ∧ n ≠ st) as Hex.
  { intros st. induction nodes as [|n nodes IH]; cbn.
    - split; [done|]. intros (n & Hin & _). by apply elem_of_nil in Hin.
    - rewrite andb_false_iff, IH, bool_decide_eq_false. split.
      + intros [Hn|(m & Hin & Hm)].
        * exists n. split; [left|done].
        * exists m. split; [by right|done].
      + intros (m & Hin & Hm). apply elem_of_cons in Hin as [->|Hin].
        * by left.
        * right. by exists m. }
  unfold calcNodeStatus. rewrite <- !Hex.
  destruct (forallb (λ s, bool_decide (s = selected)) nodes);
    destruct (forallb (λ s, bool_decide (s = unselected)) nodes);
    split; try done; by intros [? ?].
Qed.

Lemma createPatientMap_selected pat :
  ReleasePatientType.nodeStatus (createPatientMap pat) = selected
  ↔ ∀ spec, spec ∈ PatientRow.specimens pat → SpecimenRow.isSelected spec = true.
Proof.
  cbn. rewrite calcNodeStatus_selected. split.
  - intros H spec Hin.
    specialize (H (ReleaseSpecimenType.nodeStatus (createSpecimenMap spec))).
    cbn in H. destruct (SpecimenRow.isSelected spec) eqn:Hsel; [done|].
    assert (unselected = selected); [|done]. apply H.
    apply list_elem_of_fmap. eexists. split; [|by apply list_elem_of_fmap_2].
    cbn. by rewrite Hsel.
  - intros H n Hin. apply list_elem_of_fmap in Hin as (rs & -> & Hin).
    apply list_elem_of_fmap in Hin as (spec & -> & Hin).
    cbn. by rewrite (H spec Hin).
Qed.

Lemma createPatientMap_unselected pat :
  ReleasePatientType.nodeStatus (createPatientMap pat) = unselected
  ↔ PatientRow.specimens pat ≠ []
    ∧ ∀ spec, spec ∈ PatientRow.specimens pat →
              SpecimenRow.isSelected spec = false.
Proof.
  cbn. rewrite calcNodeStatus_unselected. split.
  - intros [Hne H]. split.
    + intros Hnil. rewrite Hnil in Hne. done.
    + intros spec Hin.
      specialize (H (ReleaseSpecimenType.nodeStatus (createSpecimenMap spec))).
      cbn in H. destruct (SpecimenRow.isSelected spec) eqn:Hsel; [|done].
      assert (selected = unselected); [|done]. apply H.
      apply list_elem_of_fmap. eexists. split; [|by apply list_elem_of_fmap_2].
      cbn. by rewrite Hsel.
  - intros [Hne H]. split.
    + destruct (PatientRow.specimens pat); done.
    + intros n Hin. apply list_elem_of_fmap in Hin as (rs & -> & Hin).
      apply list_elem_of_fmap in Hin as (spec & -> & Hin).
      cbn. by rewrite (H spec Hin).
Qed.

Lemma createCaseMap_selected_rows cas :
  ReleaseCaseType.nodeStatus (createCaseMap cas) = selected
  ↔ ∀ pat spec, pat ∈ CaseRow.patients cas →
                spec ∈ PatientRow.specimens pat →
                SpecimenRow.isSelected spec = true.
Proof.
  cbn. rewrite calcNodeStatus_selected. split.
  - intros H pat spec Hpat. apply createPatientMap_selected, H.
    apply list_elem_of_fmap. eexists. split; [|by apply list_elem_of_fmap_2].
    done.
  - intros H n Hin. apply list_elem_of_fmap in Hin as (rp & -> & Hin).
    apply list_elem_of_fmap in Hin as (pat & -> & Hin).
    apply createPatientMap_selected. intros spec. by apply H.
Qed.

Lemma createCaseMap_unselected_rows cas :
  ReleaseCaseType.nodeStatus (createCaseMap cas) = unselected
  ↔ CaseRow.patients cas ≠ []
    ∧ ∀ pat, pat ∈ CaseRow.patients cas →
             PatientRow.specimens pat ≠ []
             ∧ ∀ spec, spec ∈ PatientRow.specimens pat →
                       SpecimenRow.isSelected spec = false.
Proof.
  cbn. rewrite calcNodeStatus_unselected. split.
  - intros [Hne H]. split.
    + intros Hnil. rewrite Hnil in Hne. done.
    + intros pat Hpat. apply createPatientMap_unselected, H.
      apply list_elem_of_fmap. eexists. split; [|by apply list_elem_of_fmap_2].
      done.
  - intros [Hne H]. split.
    + destruct (CaseRow.patients cas); done.
    + intros n Hin. apply list_elem_of_fmap in Hin as (rp & -> & Hin).
      apply list_elem_of_fmap in Hin as (pat & -> & Hin).
      apply createPatientMap_unselected. by apply H.
Qed.

(* The specimen nodes under the patient nodes of the built case node are
   the images of the specimen rows, with [isSelected] as their state. *)
Lemma createPatientMap_specimen_nodes (st : ReleaseNodeStatusType) (b : bool) :
  (∀ spec, ReleaseSpecimenType.nodeStatus (createSpecimenMap spec) = st
           ↔ SpecimenRow.isSelected spec = b) →
  ∀ pat,
    (∀ rs, rs ∈ ReleasePatientType.specimens (createPatientMap pat) →
           ReleaseSpecimenType.nodeStatus rs = st)
    ↔ (∀ spec, spec ∈ PatientRow.specimens pat →
               SpecimenRow.isSelected spec = b).
Proof.
  intros Hst pat. cbn. split.
  - intros H spec Hin. apply Hst, H. by apply list_elem_of_fmap_2.
  - intros H rs Hin. apply list_elem_of_fmap in Hin as (spec & -> & Hin).
    by apply Hst, H.
Qed.

Lemma createSpecimenMap_selected spec :
  ReleaseSpecimenType.nodeStatus (createSpecimenMap spec) = selected
  ↔ SpecimenRow.isSelected spec = true.
Proof. cbn. by destruct (SpecimenRow.isSelected spec). Qed.

Lemma createSpecimenMap_unselected spec :
  ReleaseSpecimenType.nodeStatus (createSpecimenMap spec) = unselected
  ↔ SpecimenRow.isSelected spec = false.
Proof. cbn. by destruct (SpecimenRow.isSelected spec). Qed.

(** X18.  [createCaseMap] keeps the case node it builds in step with the
    nodes below it: the case node is selected exactly when every specimen
    node of every patient node of the built tree is selected, which is
    exactly when every specimen row of every patient row of the case row it
    was given has [isSelected] set.  A patient row without specimen rows and
    a case row without patient rows give selected nodes.  The rows are those
    the case search of [getCases] returned, not the specimens of the
    dataset. *)
Theorem createCaseMap_selected cas :
  (ReleaseCaseType.nodeStatus (createCaseMap cas) = selected
   ↔ ∀ rp rs, rp ∈ ReleaseCaseType.patients (createCaseMap cas) →
              rs ∈ ReleasePatientType.specimens rp →
              ReleaseSpecimenType.nodeStatus rs = selected)
  ∧ (ReleaseCaseType.nodeStatus (createCaseMap cas) = selected
     ↔ ∀ pat spec, pat ∈ CaseRow.patients cas →
                   spec ∈ PatientRow.specimens pat →
                   SpecimenRow.isSelected spec = true)
  ∧ (CaseRow.patients cas = [] →
     ReleaseCaseType.nodeStatus (createCaseMap cas) = selected)
  ∧ (∀ pat, PatientRow.specimens pat = [] →
            ReleasePatientType.nodeStatus (createPatientMap pat) = selected).
Proof.
  split; [|split; [apply createCaseMap_selected_rows|split]].
  - rewrite createCaseMap_selected_rows. split.
    + intros H rp rs Hrp. cbn in Hrp.
      apply list_elem_of_fmap in Hrp as (pat & -> & Hpat).
      apply (createPatientMap_specimen_nodes selected true
               createSpecimenMap_selected pat).
      intros spec. by apply H.
    + intros H pat spec Hpat.
      apply (createPatientMap_specimen_nodes selected true
               createSpecimenMap_selected pat).
      intros rs. apply H. cbn. by apply list_elem_of_fmap_2.
  - intros Hnil. apply createCaseMap_selected_rows. rewrite Hnil.
    intros pat spec Hpat. by apply elem_of_nil in Hpat.
  - intros pat Hnil. apply createPatientMap_selected. rewrite Hnil.
    intros spec Hspec. by apply elem_of_nil in Hspec.
Qed.

(** X19.  [createCaseMap] gives the case node it builds the state unselected
    exactly when the built tree has a patient node, every patient node has a
    specimen node and every specimen node is unselected, which is exactly
    when the case row has a patient row, every patient row has a specimen row
    and no specimen row has [isSelected] set.  So a case row with a patient
    row that has no specimen rows is never mapped to an unselected node. *)
Theorem createCaseMap_unselected cas :
  (ReleaseCaseType.nodeStatus (createCaseMap cas) = unselected
   ↔ ReleaseCaseType.patients (createCaseMap cas) ≠ []
     ∧ ∀ rp, rp ∈ ReleaseCaseType.patients (createCaseMap cas) →
             ReleasePatientType.specimens rp ≠ []
             ∧ ∀ rs, rs ∈ ReleasePatientType.specimens rp →
                     ReleaseSpecimenType.nodeStatus rs = unselected)
  ∧ (ReleaseCaseType.nodeStatus (createCaseMap cas) = unselected
     ↔ CaseRow.patients cas ≠ []
       ∧ ∀ pat, pat ∈ CaseRow.patients cas →
                PatientRow.specimens pat ≠ []
                ∧ ∀ spec, spec ∈ PatientRow.specimens pat →
                          SpecimenRow.isSelected spec = false)
  ∧ (∀ pat, pat ∈ CaseRow.patients cas → PatientRow.specimens pat = [] →
            ReleaseCaseType.nodeStatus (createCaseMap cas) ≠ unselected).
Proof.
  split; [|split; [apply createCaseMap_unselected_rows|]].
  - rewrite createCaseMap_unselected_rows. cbn. split.
    + intros [Hne H]. split.
      * intros Hnil. apply fmap_nil_inv in Hnil. done.
      * intros rp Hrp. apply list_elem_of_fmap in Hrp as (pat & -> & Hpat).
        destruct (H pat Hpat) as [Hne' Hall]. split.
        -- cbn. intros Hnil. apply fmap_nil_inv in Hnil. done.
        -- by apply (createPatientMap_specimen_nodes unselected false
                       createSpecimenMap_unselected pat).
    + intros [Hne H]. split.
      * intros Hnil. by rewrite Hnil in Hne.
      * intros pat Hpat.
        destruct (H (createPatientMap pat)) as [Hne' Hall];
          [by apply list_elem_of_fmap_2|].
        split.
        -- intros Hnil. cbn in Hne'. by rewrite Hnil in Hne'.
        -- by apply (createPatientMap_specimen_nodes unselected false
                       createSpecimenMap_unselected pat).
  - intros pat Hpat Hnil Hun.
    apply createCaseMap_unselected_rows in Hun as [_ H].
    by destruct (H pat Hpat) as [Hne _].
Qed.

End CheckboxTree.

(** ** The service on the small database *)

Lemma selectOrder_elements (Q : gset uuid) : elements Q ≡ₚ elements Q.
Proof. reflexivity. Qed.

Lemma demo_db1_job : jobs demo.db1 !! "j1" = Some demo.job1.
Proof. vm_compute. reflexivity. Qed.

Lemma demo_work : demo.work = Some (demo.db2, Ok 3%nat).
Proof. vm_compute. reflexivity. Qed.

Lemma demo_db2_job :
  jobs demo.db2 !! "j1"
  = Some (with_todoQueue_percentDone ∅ 99
            (with_selectedSpecimens {[ "s1"; "s2" ]} demo.job1)).
Proof. vm_compute. reflexivity. Qed.

Lemma demo_select_todoQueue :
  JobsService.select_todoQueue elements "j1" 1 demo.db1 = [demo.case3].
Proof. vm_compute. reflexivity. Qed.

Lemma demo_count_identity : count_identity demo.job1 0.
Proof. unfold count_identity. vm_compute. reflexivity. Qed.

Lemma demo_batch :
  transaction
    (JobsService.selectJobBatch demo.isSelectable elements "j1"
       (Some demo.applicationCoded)) demo.db1
  = (demo.db1_batch, Ok 1%nat).
Proof. vm_compute. reflexivity. Qed.

(** C2, counterexample.  The release [r1] has [s3] selected; the job has
    selected [s1] and [s2]; after the successful end of the job the release
    has [s1] and [s2] selected, which is not the union: [s3] is gone. *)
Lemma endSelectJob_union_counterexample :
  JobsService.endSelectJob "j1" true false demo.db2 = (demo.db3, Ok tt)
  ∧ job.forRelease <$> jobs demo.db2 !! "j1" = Some "r1"
  ∧ job.selectedSpecimens <$> jobs demo.db2 !! "j1" = Some {[ "s1"; "s2" ]}
  ∧ release.selectedSpecimens <$> releases demo.db2 !! "r1" = Some {[ "s3" ]}
  ∧ release.selectedSpecimens <$> releases demo.db3 !! "r1"
    = Some {[ "s1"; "s2" ]}
  ∧ ({[ "s1"; "s2" ]} : gset uuid) ≠ {[ "s3" ]} ∪ {[ "s1"; "s2" ]}.
Proof.
  repeat split; try (vm_compute; reflexivity).
  intros Heq.
  assert ("s3" ∈ ({[ "s1"; "s2" ]} : gset uuid)) as Hin.
  { rewrite Heq. apply elem_of_union_l. by apply elem_of_singleton. }
  apply elem_of_union in Hin as [Hin|Hin]; apply elem_of_singleton in Hin;
    discriminate.
Qed.

(** C3, at a failing input.  With a budget of one second and a clock that
    shows 100 more seconds at every reading, [doSelectJobWork] still runs a
    batch for each of the three queued cases and returns 3 with the queue
    empty; the budget passed in makes no difference to the outcome. *)
Theorem doSelectJobWork_ignores_time_budget :
  (∀ roughlyMaxSeconds,
     JobsService.doSelectJobWork demo.isSelectable elements "j1"
       roughlyMaxSeconds [0; 100000; 200000; 300000; 400000] demo.db1
     = Some (demo.db2, Ok 3%nat))
  ∧ job.todoQueue <$> jobs demo.db1 !! "j1" = Some {[ "c1"; "c2"; "c3" ]}
  ∧ job.todoQueue <$> jobs demo.db2 !! "j1" = Some ∅.
Proof.
  split; [|split; vm_compute; reflexivity].
  intros roughlyMaxSeconds.
  change (JobsService.doSelectJobWork demo.isSelectable elements "j1"
            roughlyMaxSeconds [0; 100000; 200000; 300000; 400000] demo.db1)
    with demo.work.
  vm_compute. reflexivity.
Qed.

(** C7, at a failing input.  The job starts with messages ["Created"]; after
    a call of [doSelectJobWork] that commits three batches, messages is
    still ["Created"]. *)
Theorem doSelectJobWork_messages_frozen :
  job.messages <$> jobs demo.db1 !! "j1" = Some ["Created"]
  ∧ JobsService.doSelectJobWork demo.isSelectable elements "j1" 1
      [0; 100000; 200000; 300000; 400000] demo.db1
    = Some (demo.db2, Ok 3%nat)
  ∧ job.messages <$> jobs demo.db2 !! "j1" = Some ["Created"].
Proof. repeat split; vm_compute; reflexivity. Qed.

(** ** The theorems at work on the small database *)

Lemma batch_commit_preserves_count_identity_witness :
  ∃ sj', jobs demo_more.db1_batch2 !! "j1" = Some sj'
         ∧ job.todoQueue sj' = job.todoQueue demo_more.job1_batch ∖ {[ "c1" ]}
         ∧ "s1" ∈ job.selectedSpecimens sj'
         ∧ count_identity sj' 2.
Proof.
  destruct (batch_commit_preserves_count_identity demo.isSelectable elements
              selectOrder_elements "j1" (Some demo.applicationCoded)
              demo.db1_batch demo_more.job1_batch 1 demo_more.db1_batch2
              (Ok 1%nat))
    as (sj' & claimed & rs & Hsel & _ & _ & _ & Hj' & _ & Hq & _ & Hs & _ & Hid).
  - vm_compute. reflexivity.
  - unfold count_identity. vm_compute. reflexivity.
  - vm_compute. reflexivity.
  - assert (claimed = [demo_more.case1]) as ->.
    { rewrite <- Hsel. vm_compute. reflexivity. }
    exists sj'. split; [exact Hj'|]. split; [|split; [|exact Hid]].
    + rewrite Hq. vm_compute. reflexivity.
    + apply Hs. right. exists demo_more.case1. split; [left|].
      exists (demo.patient "p1" "s1"), (demo.specimen "s1").
      split; [left|]. split; [left|]. split; reflexivity.
Defined.

Lemma batch_commit_percentDone_witness :
  ∃ sj', jobs demo.db1_batch !! "j1" = Some sj' ∧ job.percentDone sj' = 33.
Proof.
  exists (with_todoQueue_percentDone {[ "c1"; "c2" ]} 33 demo.job1).
  assert (jobs demo.db1_batch !! "j1"
          = Some (with_todoQueue_percentDone {[ "c1"; "c2" ]} 33 demo.job1)) as Hj'.
  { vm_compute. reflexivity. }
  split; [exact Hj'|].
  destruct (batch_commit_percentDone demo.isSelectable elements
              selectOrder_elements "j1" (Some demo.applicationCoded) demo.db1
              demo.job1 0 demo.db1_batch 1
              (with_todoQueue_percentDone {[ "c1"; "c2" ]} 33 demo.job1))
    as (Hpd & _).
  - vm_compute. reflexivity.
  - unfold count_identity. vm_compute. reflexivity.
  - vm_compute. reflexivity.
  - discriminate.
  - exact Hj'.
  - rewrite Hpd. vm_compute. reflexivity.
Defined.

Lemma evaluator_fault_aborts_batch_witness :
  JobsService.doSelectJobWork demo.selectFault elements "j1" 30 [0; 1000; 2000]
    demo.db1
  = Some (demo.db1, Throw (Error "consent lookup failed")).
Proof.
  destruct (evaluator_fault_aborts_batch demo.selectFault elements
              selectOrder_elements "j1" demo.db1 demo.job1
              (Error "consent lookup failed") 0 1000 [2000] 0%nat 30)
    as (e' & (cas & pat & spec & _ & _ & _ & He') & _ & _ & Hwork).
  - vm_compute. reflexivity.
  - exists demo.case3, (demo.patient "p3" "s3"), (demo.specimen "s3").
    split; [|split; [|split]].
    + rewrite demo_select_todoQueue. left.
    + left.
    + left.
    + reflexivity.
  - lia.
  - injection He' as <-. exact Hwork.
Defined.


Lemma startSelectJob_conflict_witness :
  demo.startSelectJob demo.db1
  = (demo.db1,
     Throw (Base7807Error "Only one running job is allowed per release" 400
              "Job with id(s) j1 have been found in the running state")).
Proof.
  destruct (startSelectJob_conflict (AuthenticatedUser := unit)
              (λ _ _ _, Ok "DataOwner") (λ _ _, Ok demo.info) (λ _ _ _, Ok tt)
              (λ _, "j1") tt "r1" demo.db1 demo.info "j1" demo.job1)
    as (_ & _ & Hstart & _).
  - reflexivity.
  - reflexivity.
  - vm_compute. reflexivity.
  - reflexivity.
  - reflexivity.
  - exact Hstart.
Defined.

Lemma startSelectJob_creates_job_witness :
  demo.startSelectJob demo.db0 = (demo.db1, Ok tt)
  ∧ jobs demo.db1 !! "j1" = Some demo.job1.
Proof.
  destruct (startSelectJob_creates_job (AuthenticatedUser := unit)
              (λ _ _ _, Ok "DataOwner") (λ _ _, Ok demo.info) (λ _ _ _, Ok tt)
              (λ _, "j1") tt "r1" demo.db0 demo.info "r1")
    as (Hstart & _).
  - reflexivity.
  - reflexivity.
  - vm_compute. reflexivity.
  - intros jid j Hj. vm_compute in Hj. discriminate.
  - vm_compute. reflexivity.
  - split; [|vm_compute; reflexivity].
    etransitivity; [exact Hstart|]. vm_compute. reflexivity.
Defined.

Lemma endSelectJob_cancellation_witness :
  ∃ sj', jobs (JobsService.endSelectJob "j1" false true demo.db1_batch).1 !! "j1"
         = Some sj'
         ∧ job.status sj' = job.cancelled
         ∧ releases (JobsService.endSelectJob "j1" false true demo.db1_batch).1
           = releases demo.db1_batch.
Proof.
  destruct (endSelectJob_cancellation "j1" false demo.db1_batch
              (with_todoQueue_percentDone {[ "c1"; "c2" ]} 33 demo.job1))
    as (sj' & db' & Hend & _ & Hrel & Hj' & Hst & _).
  - vm_compute. reflexivity.
  - exists sj'. rewrite Hend. cbn [fst]. split; [exact Hj'|]. split; [exact Hst|exact Hrel].
Defined.

Lemma endSelectJob_success_replaces_witness :
  ∃ rq', releases demo.db3 !! "r1" = Some rq'
         ∧ release.selectedSpecimens rq' = {[ "s1"; "s2" ]}.
Proof.
  destruct (endSelectJob_success_replaces "j1" demo.db2
              (with_todoQueue_percentDone ∅ 99
                 (with_selectedSpecimens {[ "s1"; "s2" ]} demo.job1))
              {| release.applicationCoded := demo.applicationCoded;
                 release.selectedSpecimens := {[ "s3" ]} |})
    as (db' & rq' & sj' & Hend & Hrq' & Hsel & _).
  - vm_compute. reflexivity.
  - vm_compute. reflexivity.
  - exists rq'. split; [|exact Hsel].
    unfold demo.db3. rewrite Hend. exact Hrq'.
Defined.

(** ** The scenarios of the specification *)

(* Scenario A: ten cases, an evaluator that selects everything. *)
Example scenario_A :
  scenario.view scenario.db1 = Some (job.running, 0, 10, 10, 0)
  ∧ scenario.view (scenario.batches 5 scenario.db1)
    = Some (job.running, 49, 10, 5, 5)
  ∧ scenario.view (scenario.batches 10 scenario.db1)
    = Some (job.running, 99, 10, 0, 10)
  ∧ scenario.view
      (JobsService.endSelectJob "j1" true false
         (scenario.batches 10 scenario.db1)).1
    = Some (job.succeeded, 100, 10, 0, 10)
  ∧ scenario.released
      (JobsService.endSelectJob "j1" true false
         (scenario.batches 10 scenario.db1)).1
    = Some 10.
Proof. repeat split; vm_compute; reflexivity. Qed.

(* Scenario B: the job is cancelled after three batches. *)
Example scenario_B :
  scenario.view (scenario.batches 3 scenario.db1)
  = Some (job.running, 29, 10, 7, 3)
  ∧ scenario.view
      (JobsService.endSelectJob "j1" false true
         (scenario.batches 3 scenario.db1)).1
    = Some (job.cancelled, 100, 10, 7, 3)
  ∧ scenario.released
      (JobsService.endSelectJob "j1" false true
         (scenario.batches 3 scenario.db1)).1
    = Some 0.
Proof. repeat split; vm_compute; reflexivity. Qed.

(* The exact formula of [percentDone_expr] and its binary64 evaluation give
   the same percentage for every job of up to 200 cases. *)
Example float64_agrees_upto_200 : float64_agrees_upto 200 = true.
Proof. vm_compute. reflexivity. Qed.

(** ** The further theorems at work on the small database *)

Lemma demo_db0_one_running_job : one_running_job_per_release demo.db0.
Proof.
  intros rid j1 j2 H1 _.
  apply elem_of_runningJobsOf in H1 as (j & Hj & _).
  cbn in Hj. by rewrite lookup_empty in Hj.
Qed.

Lemma demo_db1_jobs : jobs demo.db1 = {[ "j1" := demo.job1 ]}.
Proof. vm_compute. reflexivity. Qed.

Lemma demo_db1_one_running_job : one_running_job_per_release demo.db1.
Proof.
  intros rid j1 j2 H1 H2.
  apply elem_of_runningJobsOf in H1 as (sj1 & Hj1 & _).
  apply elem_of_runningJobsOf in H2 as (sj2 & Hj2 & _).
  rewrite demo_db1_jobs in Hj1, Hj2.
  apply lookup_singleton_Some in Hj1 as [<- _].
  apply lookup_singleton_Some in Hj2 as [<- _]. done.
Qed.

Lemma demo_job1_cases id :
  id ∈ job.todoQueue demo.job1 → is_Some (datasetCases demo.db1 !! id).
Proof.
  cbn. rewrite !elem_of_union, !elem_of_singleton.
  intros [[-> | ->] | ->]; vm_compute; by eexists.
Qed.

Lemma doSelectJobWork_frame_witness :
  releases demo.db2 = releases demo.db1
  ∧ datasetCases demo.db2 = datasetCases demo.db1.
Proof.
  destruct (doSelectJobWork_frame demo.isSelectable elements
              selectOrder_elements "j1" 1 [0; 100000; 200000; 300000; 400000]
              demo.db1 demo.db2 (Ok 3%nat))
    as (Hr & Hd & _).
  - vm_compute. reflexivity.
  - split; [exact Hr|exact Hd].
Defined.

Lemma doSelectJobWork_percentDone_monotone_witness :
  ∃ sj', jobs demo.db2 !! "j1" = Some sj'
         ∧ progress_recorded sj' 3
         ∧ 0 ≤ job.percentDone sj' < 100.
Proof.
  destruct (doSelectJobWork_percentDone_monotone demo.isSelectable elements
              selectOrder_elements "j1" 1 [0; 100000; 200000; 300000; 400000]
              demo.db1 demo.job1 0 demo.db2 (Ok 3%nat))
    as (sj' & p' & Hj' & _ & Hprog & Hpd & ->).
  - vm_compute. reflexivity.
  - split; [unfold count_identity|]; vm_compute; reflexivity.
  - vm_compute. reflexivity.
  - exists sj'. split; [exact Hj'|]. split; [exact Hprog|exact Hpd].
Defined.

Lemma batch_selects_approved_specimens_witness :
  "s3" ∈ job.selectedSpecimens
           (with_todoQueue_percentDone {[ "c1"; "c2" ]} 33 demo.job1)
  ↔ "s3" ∈ job.selectedSpecimens demo.job1
    ∨ ∃ cas,
        cas ∈ JobsService.select_todoQueue elements "j1" 1 demo.db1
        ∧ approves demo.isSelectable (Some demo.applicationCoded) cas "s3".
Proof.
  apply (batch_selects_approved_specimens demo.isSelectable elements
           selectOrder_elements "j1" (Some demo.applicationCoded) demo.db1
           demo.job1 demo.db1_batch 1
           (with_todoQueue_percentDone {[ "c1"; "c2" ]} 33 demo.job1)).
  - vm_compute. reflexivity.
  - vm_compute. reflexivity.
  - vm_compute. reflexivity.
Defined.

Lemma doSelectJobWork_complete_witness :
  ∃ out sj',
    JobsService.doSelectJobWork demo.isSelectable elements "j1" 1
      [0; 100000; 200000; 300000; 400000] demo.db1
    = Some (out, Ok 3%nat)
    ∧ jobs out !! "j1" = Some sj'
    ∧ job.todoQueue sj' = ∅
    ∧ job.percentDone sj' = 99.
Proof.
  destruct (doSelectJobWork_complete demo.isSelectable elements
              selectOrder_elements "j1" 1 0 [100000; 200000; 300000; 400000]
              demo.db1 demo.job1 0)
    as (out & sj' & Hwork & Hj' & Hq & _ & Hpd).
  - vm_compute. reflexivity.
  - unfold count_identity. vm_compute. reflexivity.
  - exact demo_job1_cases.
  - intros cas pat spec. eexists. reflexivity.
  - repeat constructor; lia.
  - vm_compute. lia.
  - exists out, sj'. split; [exact Hwork|]. split; [exact Hj'|].
    split; [exact Hq|]. apply Hpd.
    intros Hempty. assert ("c1" ∈ job.todoQueue demo.job1) as Hin.
    { cbn. rewrite !elem_of_union, !elem_of_singleton. by left; left. }
    rewrite Hempty in Hin. by apply not_elem_of_empty in Hin.
Defined.

Lemma doSelectJobWork_empty_queue_witness :
  JobsService.doSelectJobWork demo.isSelectable elements "j1" 1 [0; 1000]
    demo.db2
  = Some (demo.db2, Ok 0%nat).
Proof.
  apply (doSelectJobWork_empty_queue demo.isSelectable elements
           selectOrder_elements "j1" 1 0 1000 [] demo.db2 demo_more.job2).
  - vm_compute. reflexivity.
  - reflexivity.
  - lia.
Defined.

Lemma job_control_not_authorised_witness :
  demo_more.startSelectJob_PI demo.db0
  = (demo.db0, Throw (NotAuthorisedToControlJob "PI" "r1")).
Proof.
  destruct (job_control_not_authorised (AuthenticatedUser := unit)
              (λ _ _ _, Ok "PI") (λ _ _, Ok demo.info) (λ _ _ _, Ok tt)
              (λ _, "j1") tt "r1" demo.db0 "PI")
    as [Hstart _].
  - reflexivity.
  - discriminate.
  - exact Hstart.
Defined.

Lemma startSelectJob_one_running_job_witness :
  one_running_job_per_release demo.db1.
Proof.
  apply (startSelectJob_one_running_job (AuthenticatedUser := unit)
           (λ _ _ _, Ok "DataOwner") (λ _ _, Ok demo.info) (λ _ _ _, Ok tt)
           (λ _, "j1") tt "r1" demo.db0 demo.db1 (Ok tt)).
  - exact demo_db0_one_running_job.
  - intros info rel [= <-] Hrel. vm_compute in Hrel. by injection Hrel as <-.
  - vm_compute. reflexivity.
Defined.

Lemma cancelInProgressSelectJob_no_job_witness :
  demo_more.cancelInProgressSelectJob demo.db0
  = (demo.db0, Throw (Error "No job yet")).
Proof.
  apply (cancelInProgressSelectJob_no_job (AuthenticatedUser := unit)
           (λ _ _ _, Ok "DataOwner") (λ _ _, Ok demo.info) (λ _ _ _, Ok tt)
           tt "r1" demo.db0 demo.info).
  - reflexivity.
  - reflexivity.
  - intros jid j Hj. cbn in Hj. by rewrite lookup_empty in Hj.
Defined.

Lemma cancelInProgressSelectJob_sets_flag_witness :
  demo_more.cancelInProgressSelectJob demo.db1
  = (cancellation_requested "j1" demo.db1, Ok tt).
Proof.
  destruct (cancelInProgressSelectJob_sets_flag (AuthenticatedUser := unit)
              (λ _ _ _, Ok "DataOwner") (λ _ _, Ok demo.info) (λ _ _ _, Ok tt)
              tt "r1" demo.db1 demo.info "j1" demo.job1)
    as (Hcancel & Hcr & _).
  - reflexivity.
  - reflexivity.
  - exact demo_db1_one_running_job.
  - vm_compute. reflexivity.
  - reflexivity.
  - reflexivity.
  - rewrite <- Hcr. exact Hcancel.
Defined.

Lemma endSelectJob_frame_witness :
  releases (JobsService.endSelectJob "j1" false false demo.db2).1
  = releases demo.db2.
Proof.
  destruct (endSelectJob_frame "j1" false false demo.db2 demo_more.job2)
    as (db' & Hend & _ & _ & _ & _ & _ & Hrel).
  - vm_compute. reflexivity.
  - rewrite Hend. apply Hrel. by right.
Defined.

Lemma endSelectJob_unknown_job_witness :
  JobsService.endSelectJob "j2" true false demo.db2 = (demo.db2, Ok tt).
Proof.
  apply (endSelectJob_unknown_job "j2" true false demo.db2).
  vm_compute. reflexivity.
Defined.

Lemma endSelectJob_moves_job_to_previous_witness :
  "j1" ∈ JobsService.getPreviousJobs "r1" demo.db3.
Proof.
  destruct (endSelectJob_moves_job_to_previous "j1" true false demo.db2
              demo_more.job2)
    as (_ & _ & Hprev & _).
  - vm_compute. reflexivity.
  - exact Hprev.
Defined.

Lemma startGenericJob_after_endSelectJob_witness :
  JobsService.runningJobsOf "r1"
    (JobsService.endSelectJob "j1" false true demo.db1).1 = [].
Proof.
  destruct (startGenericJob_after_endSelectJob "j1" false true demo.db1
              demo.job1 (tx_ret tt))
    as (Hnil & _).
  - exact demo_db1_one_running_job.
  - vm_compute. reflexivity.
  - reflexivity.
  - exact Hnil.
Defined.

Lemma doSelectJobWork_keeps_job_lists_witness :
  "j1" ∈ JobsService.runningJobsOf "r1" demo.db2
  ↔ "j1" ∈ JobsService.runningJobsOf "r1" demo.db1.
Proof.
  destruct (doSelectJobWork_keeps_job_lists demo.isSelectable elements "j1" 1
              [0; 100000; 200000; 300000; 400000] demo.db1 demo.db2 (Ok 3%nat))
    as (Hrun & _).
  - vm_compute. reflexivity.
  - exact (Hrun "r1" "j1").
Defined.

Lemma select_job_start_to_end_witness :
  ∃ db2 sj3 rq3,
    JobsService.doSelectJobWork demo.isSelectable elements "j1" 1
      [0; 100000; 200000; 300000; 400000] (demo.startSelectJob demo.db0).1
    = Some (db2, Ok 3%nat)
    ∧ jobs (JobsService.endSelectJob "j1" true false db2).1 !! "j1" = Some sj3
    ∧ job.status sj3 = job.succeeded
    ∧ releases (JobsService.endSelectJob "j1" true false db2).1 !! "r1"
      = Some rq3.
Proof.
  destruct (select_job_start_to_end (AuthenticatedUser := unit)
              (λ _ _ _, Ok "DataOwner") (λ _ _, Ok demo.info) (λ _ _ _, Ok tt)
              demo.isSelectable (λ _, "j1") elements selectOrder_elements
              tt "r1" demo.db0 demo.info
              {| release.applicationCoded := demo.applicationCoded;
                 release.selectedSpecimens := {[ "s3" ]} |}
              1 0 [100000; 200000; 300000; 400000])
    as (db2 & sj3 & rq3 & Hwork & Hj3 & Hst & _ & _ & Hrq3 & _).
  - reflexivity.
  - reflexivity.
  - vm_compute. reflexivity.
  - vm_compute. reflexivity.
  - intros jid j Hj. cbn in Hj. by rewrite lookup_empty in Hj.
  - intros id Hid. apply demo_job1_cases.
    assert (releaseAllDatasetCasesQuery demo.info demo.db0
            = job.todoQueue demo.job1) as <- by (vm_compute; reflexivity).
    exact Hid.
  - intros cas pat spec. eexists. reflexivity.
  - repeat constructor; lia.
  - vm_compute. lia.
  - exists db2, sj3, rq3.
    assert (size (releaseAllDatasetCasesQuery demo.info demo.db0) = 3%nat) as Hn
      by (vm_compute; reflexivity).
    rewrite Hn in Hwork.
    split; [exact Hwork|]. split; [exact Hj3|]. split; [exact Hst|exact Hrq3].
Defined.

Lemma createCaseMap_selected_witness :
  ReleasesService.ReleaseCaseType.nodeStatus
    (ReleasesService.createCaseMap demo_rows.collapseExternalIds
       demo_rows.case_all)
  = ReleasesService.selected.
Proof.
  destruct (createCaseMap_selected demo_rows.collapseExternalIds
              demo_rows.case_all) as (_ & Hrows & _).
  apply Hrows. intros pat spec Hpat Hspec.
  apply elem_of_cons in Hpat as [->|Hpat];
    [|apply list_elem_of_singleton in Hpat as ->];
    apply list_elem_of_singleton in Hspec as ->; reflexivity.
Defined.

Lemma createCaseMap_unselected_witness :
  ReleasesService.ReleaseCaseType.nodeStatus
    (ReleasesService.createCaseMap demo_rows.collapseExternalIds
       demo_rows.case_none)
  = ReleasesService.unselected.
Proof.
  destruct (createCaseMap_unselected demo_rows.collapseExternalIds
              demo_rows.case_none) as (_ & Hrows & _).
  apply Hrows. split; [discriminate|].
  intros pat Hpat. apply list_elem_of_singleton in Hpat as ->.
  split; [discriminate|].
  intros spec Hspec. apply list_elem_of_singleton in Hspec as ->. reflexivity.
Defined.
